(** * Reddit analytics dashboard: loading, filtering and aggregation

    A shallow embedding of the data path of [reddit_dashboard_enhanced.py]
    (fetch, tag, concatenate, normalise, cache, filter, aggregate) with the
    properties of that path stated and proved over it.

    Conventions of the embedding:
    - a MongoDB document is a dictionary that always carries [_id];
    - a pandas DataFrame is a set of column names and a list of rows, a row
      being a finite map from column names to cells; a cell a row does not
      hold reads as the missing value (NaN / None / NaT);
    - Python exceptions are results in an error monad; the store queries are
      recorded in a query log threaded through the loader;
    - the order in which [value_counts] lists keys of equal count is left
      to the sort of the library, which is not a stable one: the sort is a
      parameter of the model, known by its contract only;
    - a number stored in a cell is the rational it denotes; the percentages
      of the label distribution are computed as the code computes them, in
      double precision, every operation rounding its exact result to the
      nearest double; the mean of the scores is left exact;
    - strings are strings of 8-bit characters. *)

From Stdlib Require Import Ascii QArith Qcanon Sorted Qround Qabs Qpower Lqa.
From Stdlib Require String SpecFloat.
From stdpp Require Import gmap strings list sorting.

(** ** Cells, exceptions and results *)

(** The scalar values a cell can hold.  [VNull] stands for every missing
    value of pandas (None, NaN, NaT): [isna] is true of exactly this one. *)
Inductive value :=
  | VNull
  | VStr (s : string)
  | VNum (q : Qc)
  | VTime (t : Z).

#[global] Instance value_eq_dec : EqDecision value.
Proof. solve_decision. Defined.

#[global] Instance value_inhabited : Inhabited value := populate VNull.

Definition isna (v : value) : bool :=
  match v with VNull => true | _ => false end.

Definition is_str (v : value) : bool :=
  match v with VStr _ => true | _ => false end.

(** The exceptions the modelled code can raise. *)
Inductive exn :=
  | KeyError (key : string)
  | AttributeError (msg : string).

#[global] Instance exn_eq_dec : EqDecision exn.
Proof. solve_decision. Defined.

Inductive result (A : Type) :=
  | Ok (a : A)
  | Raise (e : exn).
Arguments Ok {A} a.
Arguments Raise {A} e.

#[global] Instance result_ret : MRet result := λ A a, Ok a.

#[global] Instance result_bind : MBind result := λ A B k r,
  match r with
  | Ok a => k a
  | Raise e => Raise e
  end.

(** ** String methods *)

Definition lower_ascii (c : ascii) : ascii :=
  let n := nat_of_ascii c in
  if (65 <=? n)%nat && (n <=? 90)%nat then ascii_of_nat (n + 32) else c.

Definition upper_ascii (c : ascii) : ascii :=
  let n := nat_of_ascii c in
  if (97 <=? n)%nat && (n <=? 122)%nat then ascii_of_nat (n - 32) else c.

Definition is_cased (c : ascii) : bool :=
  let n := nat_of_ascii c in
  ((65 <=? n)%nat && (n <=? 90)%nat) || ((97 <=? n)%nat && (n <=? 122)%nat).

(** [str.lower()] *)
Fixpoint str_lower (s : string) : string :=
  match s with
  | EmptyString => EmptyString
  | String c s' => String (lower_ascii c) (str_lower s')
  end.

(** [str.upper()] *)
Fixpoint str_upper (s : string) : string :=
  match s with
  | EmptyString => EmptyString
  | String c s' => String (upper_ascii c) (str_upper s')
  end.

(** [str.title()]: a cased character is upper-cased when it follows an
    uncased one (or starts the string) and lower-cased otherwise. *)
Fixpoint str_title_from (prev_cased : bool) (s : string) : string :=
  match s with
  | EmptyString => EmptyString
  | String c s' =>
      String (if prev_cased then lower_ascii c else upper_ascii c)
             (str_title_from (is_cased c) s')
  end.

Definition str_title (s : string) : string := str_title_from false s.

(** [s[:n]] *)
Definition str_prefix (n : nat) (s : string) : string := String.substring 0 n s.

(** ** DataFrames *)

Abbreviation row := (gmap string value).

Record DataFrame := mkDataFrame {
  columns : gset string;
  rows : list row;
}.

(** The cell of a row under a column; a cell the row does not hold is
    missing. *)
Definition cell (c : string) (r : row) : value := default VNull (r !! c).

(** [df.empty]: true when either axis has length zero. *)
Definition df_empty (df : DataFrame) : bool :=
  bool_decide (rows df = []) || bool_decide (columns df = ∅).

(** [len(df)] *)
Definition df_len (df : DataFrame) : nat := length (rows df).

(** [pd.DataFrame()] *)
Definition empty_frame : DataFrame := mkDataFrame ∅ [].

(** [pd.DataFrame(records)]: one row per record, the columns are the keys
    that occur in at least one record. *)
Definition frame_of_records (rs : list row) : DataFrame :=
  mkDataFrame (⋃ (dom <$> rs)) rs.

(** [df[c]]: the column as the list of its cells; [KeyError] when the
    frame has no such column. *)
Definition getitem (c : string) (df : DataFrame) : result (list value) :=
  if decide (c ∈ columns df) then Ok (cell c <$> rows df)
  else Raise (KeyError c).

(** What [df.get(c, default)] returns: the column when it exists, else the
    default, which is a plain Python object and not a Series. *)
Inductive series_or_scalar :=
  | Series (vs : list value)
  | Scalar (v : value).

Definition df_get (c : string) (dflt : value) (df : DataFrame)
  : series_or_scalar :=
  if decide (c ∈ columns df) then Series (cell c <$> rows df)
  else Scalar dflt.

(** [df[c] = series]: cells are aligned by position, a position the series
    does not cover receives the missing value. *)
Fixpoint assign_cells (c : string) (vs : list value) (rs : list row)
  : list row :=
  match rs with
  | [] => []
  | r :: rs' =>
      <[c := hd VNull vs]> r :: assign_cells c (tl vs) rs'
  end.

Definition setitem (c : string) (vs : list value) (df : DataFrame)
  : DataFrame :=
  mkDataFrame ({[c]} ∪ columns df) (assign_cells c vs (rows df)).

(** [df[c] = scalar]: the scalar is broadcast to every row. *)
Definition setitem_scalar (c : string) (v : value) (df : DataFrame)
  : DataFrame :=
  mkDataFrame ({[c]} ∪ columns df) ((λ r, <[c := v]> r) <$> rows df).

Definition setitem_any (c : string) (x : series_or_scalar) (df : DataFrame)
  : DataFrame :=
  match x with
  | Series vs => setitem c vs df
  | Scalar v => setitem_scalar c v df
  end.

(** [pd.concat([a, b], ignore_index=True)] *)
Definition concat (a b : DataFrame) : DataFrame :=
  mkDataFrame (columns a ∪ columns b) (rows a ++ rows b).

(** [df.dropna(subset=[c])] *)
Definition dropna (c : string) (df : DataFrame) : result DataFrame :=
  if decide (c ∈ columns df)
  then Ok (mkDataFrame (columns df)
             (filter (λ r, isna (cell c r) = false) (rows df)))
  else Raise (KeyError c).

(** [series.fillna(v)] *)
Definition fillna (v : value) (vs : list value) : list value :=
  (λ x, if isna x then v else x) <$> vs.

(** The [.str] accessor of a Series.  pandas refuses it
    ([AttributeError]) when the inferred type of the column is not a
    string-like one: a column that holds values but no string at all. *)
Definition str_accessor (vs : list value) : result (list value) :=
  if existsb is_str vs || forallb isna vs then Ok vs
  else Raise (AttributeError "Can only use .str accessor with string values!").

(** A string method applied through [.str]: cells that are not strings
    come out missing. *)
Definition str_map (f : string → string) (vs : list value) : list value :=
  (λ x, match x with VStr s => VStr (f s) | _ => VNull end) <$> vs.

(** [series + suffix] for an object column: missing cells stay missing. *)
Definition series_add_str (suffix : string) (vs : list value) : list value :=
  (λ x, match x with VStr s => VStr (s +:+ suffix) | _ => VNull end) <$> vs.

(** [series.isin(values)] *)
Definition isin (sel : list value) (vs : list value) : list bool :=
  (λ v, bool_decide (v ∈ sel)) <$> vs.

(** [m1 & m2] on boolean Series *)
Definition mask_and (m1 m2 : list bool) : list bool :=
  zip_with andb m1 m2.

(** [df[mask]]: the rows under a true position of the mask. *)
Fixpoint select_rows (mask : list bool) (rs : list row) : list row :=
  match mask, rs with
  | b :: mask', r :: rs' =>
      if b then r :: select_rows mask' rs' else select_rows mask' rs'
  | _, _ => []
  end.

Definition df_mask (mask : list bool) (df : DataFrame) : DataFrame :=
  mkDataFrame (columns df) (select_rows mask (rows df)).

(** [df.head(n)] *)
Definition df_head (n : nat) (df : DataFrame) : DataFrame :=
  mkDataFrame (columns df) (take n (rows df)).

(** ** Counting, ordering and ranking *)

Section counting.
Context {A : Type} `{EqDecision A}.

(** [series.unique()]: the distinct values in order of first appearance. *)
Fixpoint unique (l : list A) : list A :=
  match l with
  | [] => []
  | x :: l' => x :: filter (λ y, y ≠ x) (unique l')
  end.

(** The number of positions of [l] that hold [x]. *)
Definition count_of (x : A) (l : list A) : nat :=
  length (filter (λ y, y = x) l).

(** The distinct values with their number of occurrences, in order of
    first appearance: what the hash table behind [value_counts] and
    [groupby(...).size()] holds before any sorting. *)
Definition tally (l : list A) : list (A * nat) :=
  (λ x, (x, count_of x l)) <$> unique l.
End counting.

Section sorting.
Context {A : Type} (precedes : A → A → bool).

(** A stable insertion sort: [x] is put in front of the first element it
    may precede, so that elements of equal rank keep their order. *)
Fixpoint insert_sorted (x : A) (l : list A) : list A :=
  match l with
  | [] => [x]
  | y :: l' =>
      if precedes x y then x :: y :: l' else y :: insert_sorted x l'
  end.

Fixpoint stable_sort (l : list A) : list A :=
  match l with
  | [] => []
  | x :: l' => insert_sorted x (stable_sort l')
  end.
End sorting.

(** The order in which values of one type sort (strings by code point,
    numbers and instants by magnitude); pandas only orders columns of one
    type, values of different types are ranked by their constructor here. *)
Definition value_rank (v : value) : nat :=
  match v with VNull => 0 | VNum _ => 1 | VStr _ => 2 | VTime _ => 3 end.

Definition value_leb (a b : value) : bool :=
  match a, b with
  | VStr s, VStr t => String.leb s t
  | VNum p, VNum q => bool_decide (p ≤ q)%Qc
  | VTime s, VTime t => (s <=? t)%Z
  | _, _ => (value_rank a <=? value_rank b)%nat
  end.

(** Rows of a count table: a key with its count. *)
Definition count_desc {K} (a b : K * nat) : bool := (b.2 <=? a.2)%nat.

Definition dropna_values (vs : list value) : list value :=
  filter (λ v, isna v = false) vs.

(** The sort behind [Series.sort_values(ascending=False)].  pandas takes
    the positions of the sorted values from [numpy.argsort] with its
    default kind, a quicksort that is not stable: what is known of the
    positions it returns is that they are the positions of the table, each
    once, and that the counts they point at are in descending order.  The
    order it gives to equal counts is not fixed by the code; it reads the
    counts and never the keys.  An [argsort] is any function with this
    contract. *)
Record argsort := mkArgsort {
  indexer : list nat → list nat;
  indexer_perm : ∀ counts, indexer counts ≡ₚ seq 0 (length counts);
  indexer_sorted : ∀ counts,
    Sorted (λ i j, counts !!! j ≤ counts !!! i) (indexer counts);
}.

(** [series.value_counts()]: missing values are not counted, the keys are
    tallied in order of first appearance, and the table is put in the
    order of [sort_values(ascending=False)] on the counts. *)
Definition value_counts (o : argsort) (vs : list value) : list (value * nat) :=
  let t := tally (dropna_values vs) in
  (λ i, t !!! i) <$> indexer o (t.*2).

(** Two ways of sorting that meet the contract: an insertion sort of the
    positions, which leaves equal counts in the order of the table, and the
    same sort run on the table read backwards, which reverses them. *)
Definition stable_positions (counts : list nat) : list nat :=
  (stable_sort count_desc (zip (seq 0 (length counts)) counts)).*1.

Definition reversing_positions (counts : list nat) : list nat :=
  (stable_sort count_desc (reverse (zip (seq 0 (length counts)) counts))).*1.

(** [counts.get(key, 0)] *)
Definition counts_get (k : value) (t : list (value * nat)) : nat :=
  match list_find (λ kc, kc.1 = k) t with
  | Some (_, (_, n)) => n
  | None => 0
  end.

(** [series.nunique()] *)
Definition nunique (vs : list value) : nat :=
  length (unique (dropna_values vs)).

(** [series.mode()]: the most frequent values, sorted. *)
Definition mode (vs : list value) : list value :=
  let t := tally (dropna_values vs) in
  stable_sort value_leb
    (fst <$> filter (λ kc, kc.2 = max_list (snd <$> t)) t).

(** [series[0]] on a default index: the first entry, [KeyError] when there
    is none. *)
Definition series_first (vs : list value) : result value :=
  match vs with
  | v :: _ => Ok v
  | [] => Raise (KeyError "0")
  end.

(** A string method called on a scalar: only strings have it. *)
Definition scalar_str_method (name : string) (f : string → string)
    (v : value) : result value :=
  match v with
  | VStr s => Ok (VStr (f s))
  | _ => Raise (AttributeError name)
  end.

Definition pair_leb (a b : value * value) : bool :=
  if decide (a.1 = b.1) then value_leb a.2 b.2 else value_leb a.1 b.1.

Definition key_asc {K} (leb : K → K → bool) (a b : K * nat) : bool :=
  leb a.1 b.1.

(** [df.groupby([c1, c2]).size().reset_index(name='Count')]: one entry per
    observed pair of keys, rows with a missing key left out, sorted by
    key. *)
Definition groupby_size (c1 c2 : string) (df : DataFrame)
  : result (list ((value * value) * nat)) :=
  k1 ← getitem c1 df;
  k2 ← getitem c2 df;
  let keys :=
    filter (λ k, isna k.1 = false ∧ isna k.2 = false) (zip k1 k2) in
  Ok (stable_sort (key_asc pair_leb) (tally keys)).

(** ** The document store *)

(** A document as the driver returns it: a dictionary that always holds
    [_id], next to whatever fields the producer wrote. *)
Record document := mkDocument {
  doc_id : value;
  doc_fields : gmap string value;
}.

Definition record_of (d : document) : row :=
  <["_id" := doc_id d]> (doc_fields d).

(** The store at one instant: the documents of each collection, in the
    order in which the server's sort on [timestamp], newest first, lists
    them. *)
Record store := mkStore {
  collection : string → list document;
}.

Definition query_log : Type := list string.

(** [list(db[coll].find().limit(3000).sort("timestamp", -1))]: one query,
    recorded in the log. *)
Definition find (db : store) (coll : string) (log : query_log)
  : list document * query_log :=
  (take 3000 (collection db coll), log ++ [coll]).

(** ** The data loader *)

Section loader.
(** The parsers of pandas are taken as given: [parse_numeric] is what
    [pd.to_numeric] makes of a cell that is neither a number nor missing,
    [parse_datetime] what [pd.to_datetime] makes of a cell that is neither
    an instant nor missing (the format it expects may depend on the rest
    of the column), [strftime] the rendering of the clock reading. *)
Variable parse_numeric : value → option Qc.
Variable parse_datetime : list value → value → option Z.
Variable strftime : Z → string.

(** What [pd.to_numeric(..., errors='coerce')] makes of one cell: a
    number stays, a missing cell stays missing, anything else is parsed
    and becomes missing when it does not parse. *)
Definition numeric_cell (v : value) : value :=
  match v with
  | VNum q => VNum q
  | VNull => VNull
  | _ => from_option VNum VNull (parse_numeric v)
  end.

(** [pd.to_numeric(series, errors='coerce')] *)
Definition to_numeric (vs : list value) : list value :=
  numeric_cell <$> vs.

(** What [pd.to_datetime(..., errors='coerce', utc=True)] makes of one
    cell of the column [vs]: an instant stays, a missing cell stays
    missing, anything else is parsed and becomes NaT when it does not
    parse. *)
Definition datetime_cell (vs : list value) (v : value) : value :=
  match v with
  | VTime t => VTime t
  | VNull => VNull
  | _ => from_option VTime VNull (parse_datetime vs v)
  end.

(** [pd.to_datetime(series, errors='coerce', utc=True)] *)
Definition to_datetime (vs : list value) : list value :=
  datetime_cell vs <$> vs.

(** Lines 128-131: the posts frame is tagged when it is not empty. *)
Definition tag_posts (df_posts : DataFrame) : DataFrame :=
  if negb (df_empty df_posts) then
    let df := setitem_scalar "type" (VStr "Post") df_posts in
    let df := setitem_any "link" (df_get "url" (VStr "") df) df in
    setitem_any "body_preview" (df_get "selftext" (VStr "") df) df
  else df_posts.

(** [df_comments.get('body', '').str[:100] + "..."]: when the frame has
    no [body] column, [get] hands back the plain string default, which
    has no [.str]. *)
Definition synthesize_titles (df : DataFrame) : result (list value) :=
  match df_get "body" (VStr "") df with
  | Series vs =>
      bodies ← str_accessor vs;
      Ok (series_add_str "..." (str_map (str_prefix 100) bodies))
  | Scalar _ =>
      Raise (AttributeError "'str' object has no attribute 'str'")
  end.

(** Lines 136-140: the comments frame is tagged when it is not empty. *)
Definition tag_comments (df_comments : DataFrame) : result DataFrame :=
  if negb (df_empty df_comments) then
    let df := setitem_scalar "type" (VStr "Comment") df_comments in
    titles ← synthesize_titles df;
    let df := setitem "title" titles df in
    let df := setitem_any "body_preview" (df_get "body" (VStr "") df) df in
    Ok (setitem_any "link" (df_get "url" (VStr "") df) df)
  else Ok df_comments.

(** Lines 147-160: type conversions, defaults, and the removal of rows
    without a valid time. *)
Definition normalize (df : DataFrame) : result DataFrame :=
  let df :=
    if decide ("timestamp" ∈ columns df)
    then setitem "timestamp" (to_datetime (cell "timestamp" <$> rows df)) df
    else df in
  vader ← getitem "vader_score" df;
  let df := setitem "vader_score" (fillna (VNum 0) (to_numeric vader)) df in
  label ← getitem "transformer_label" df;
  label ← str_accessor (fillna (VStr "neutral") label);
  let df := setitem "transformer_label" (str_map str_lower label) df in
  sub ← getitem "subreddit" df;
  let df := setitem "subreddit" (fillna (VStr "unknown") sub) df in
  dropna "timestamp" df.

(** What [load_data] returns: the frame and the load time, [None] when
    there was nothing to load. *)
Definition loaded : Type := DataFrame * option string.

(** Lines 142-165, once both frames are there. *)
Definition combine (now : Z) (df_posts df_comments : DataFrame)
  : result loaded :=
  if df_empty df_posts && df_empty df_comments then Ok (empty_frame, None)
  else
    df ← normalize (concat df_posts df_comments);
    Ok (df, Some (strftime now)).

(** The body of [load_data], run at clock reading [now] against the
    store [db]. *)
Definition load_data_body (now : Z) (db : store) (log : query_log)
  : result loaded * query_log :=
  let '(posts, log) := find db "posts" log in
  let df_posts := tag_posts (frame_of_records (record_of <$> posts)) in
  let '(comments, log) := find db "comments" log in
  let df_comments := frame_of_records (record_of <$> comments) in
  (df_comments ← tag_comments df_comments; combine now df_posts df_comments,
   log).

(** *** The cache around [load_data] *)

(** The process state the loader touches: the single slot of
    [st.cache_data] (the function takes no argument, so there is one
    key), holding the value and the clock reading at which it was
    stored, and the log of store queries. *)
Record app_state := mkAppState {
  cache_slot : option (Z * loaded);
  queries : query_log;
}.

Definition ttl : Z := 300.

(** [@st.cache_data(ttl=300)]: an entry is served while the clock is
    before its expiry, [stored + ttl]; otherwise the body runs, and its
    value is stored unless it raised. *)
Definition load_data (now : Z) (db : store) (s : app_state)
  : result loaded * app_state :=
  match cache_slot s with
  | Some (stored, v) =>
      if decide (now < stored + ttl)%Z then (Ok v, s)
      else
        let '(r, log) := load_data_body now db (queries s) in
        (r, mkAppState (match r with Ok v' => Some (now, v') | Raise _ => None end) log)
  | None =>
      let '(r, log) := load_data_body now db (queries s) in
      (r, mkAppState (match r with Ok v' => Some (now, v') | Raise _ => None end) log)
  end.

(** [st.cache_data.clear()], the invalidation behind the refresh
    button. *)
Definition cache_data_clear (s : app_state) : app_state :=
  mkAppState None (queries s).

(** *** Row-wise reading of the loader *)

(** The documents one run of the loader fetches. *)
Definition fetched (db : store) (coll : string) : list document :=
  take 3000 (collection db coll).

(** The value a document holds under a field, missing when it holds
    none. *)
Definition field (c : string) (d : document) : value :=
  cell c (record_of d).

(** The title a comment with the given body receives. *)
Definition comment_title (body : value) : value :=
  match body with
  | VStr b => VStr (str_prefix 100 b +:+ "...")
  | _ => VNull
  end.

(** The normalised score, label and subreddit of a stored value. *)
Definition normal_score (v : value) : value :=
  match numeric_cell v with
  | VNull => VNum 0
  | x => x
  end.

Definition normal_label (v : value) : value :=
  match v with
  | VNull => VStr "neutral"
  | VStr s => VStr (str_lower s)
  | _ => VNull
  end.

Definition normal_subreddit (v : value) : value :=
  match v with
  | VNull => VStr "unknown"
  | x => x
  end.

(** A row after normalisation, [ts] being the timestamp column it is
    converted in. *)
Definition normalized_row (ts : list value) (r : row) : row :=
  <["subreddit" := normal_subreddit (cell "subreddit" r)]>
    (<["transformer_label" := normal_label (cell "transformer_label" r)]>
       (<["vader_score" := normal_score (cell "vader_score" r)]>
          (<["timestamp" := datetime_cell ts (cell "timestamp" r)]> r))).

(** The documents a load keeps are those whose timestamp converts. *)
Definition kept (ts : list value) (d : document) : Prop :=
  isna (datetime_cell ts (field "timestamp" d)) = false.

#[global] Instance kept_dec ts d : Decision (kept ts d).
Proof. unfold kept. apply _. Defined.

Definition normalized_columns : list string :=
  ["timestamp"; "vader_score"; "transformer_label"; "subreddit"].

Definition post_columns : list string := ["type"; "link"; "body_preview"].

Definition comment_columns : list string :=
  ["type"; "title"; "body_preview"; "link"].

(** The four normalised cells of the row [r] loaded from document [d]. *)
Definition normalized_from (ts : list value) (d : document) (r : row)
  : Prop :=
  cell "timestamp" r = datetime_cell ts (field "timestamp" d)
  ∧ cell "vader_score" r = normal_score (field "vader_score" d)
  ∧ cell "transformer_label" r = normal_label (field "transformer_label" d)
  ∧ cell "subreddit" r = normal_subreddit (field "subreddit" d).

(** [r] is the row loaded from the post [d]. *)
Definition post_row_of (ts : list value) (d : document) (r : row) : Prop :=
  normalized_from ts d r
  ∧ cell "type" r = VStr "Post"
  ∧ ∀ c, c ∉ post_columns ++ normalized_columns → cell c r = field c d.

(** [r] is the row loaded from the comment [d]. *)
Definition comment_row_of (ts : list value) (d : document) (r : row)
  : Prop :=
  normalized_from ts d r
  ∧ cell "type" r = VStr "Comment"
  ∧ cell "title" r = comment_title (field "body" d)
  ∧ ∀ c, c ∉ comment_columns ++ normalized_columns → cell c r = field c d.

(** The result of one run of the loader, the log left aside. *)
Definition load_data_result (now : Z) (db : store) : result loaded :=
  (load_data_body now db []).1.

(** A column of what a load returned. *)
Definition loaded_column (c : string) (r : result loaded)
  : result (list value) :=
  v ← r; Ok (cell c <$> rows v.1).
End loader.

(** ** Double-precision arithmetic *)

(** Python's [float] and numpy's [float64] are IEEE 754 doubles: an
    operation returns its exact result rounded to the nearest number with
    53 significant bits, a tie going to the even significand.  A double is
    modelled by the rational it denotes.  The exponent range of doubles is
    not modelled: the operations of this file work on 0 and on magnitudes
    between 2^-64 and 2^64, where no double underflows or overflows. *)

Definition pow2 (e : Z) : Q := (2 ^ e)%Q.

(** The exponent of a positive rational: the largest [e] with
    [2^e <= x]. *)
Definition floor_log2 (x : Q) : Z :=
  let e := (Z.log2 (Qnum x) - Z.log2 (Z.pos (Qden x)))%Z in
  if Qle_bool (pow2 e) x then e else (e - 1)%Z.

(** The nearest integer, the even one of the two when the distance is
    the same. *)
Definition round_half_even (x : Q) : Z :=
  let n := Qfloor x in
  match (x - inject_Z n ?= 1 # 2)%Q with
  | Lt => n
  | Gt => (n + 1)%Z
  | Eq => if Z.even n then n else (n + 1)%Z
  end.

(** The double nearest to [x]: [x] is scaled so that its integer part has
    53 bits, rounded to an integer, and scaled back. *)
Definition binary64 (x : Q) : Q :=
  if Qeq_bool x 0 then 0%Q
  else
    let e := (floor_log2 (Qabs x) - 52)%Z in
    Qred (inject_Z (round_half_even (x / pow2 e)) * pow2 e).

(** An integer operand converted to a double, and the three operations
    on doubles. *)
Definition float_of_nat (n : nat) : Q := binary64 (inject_Z (Z.of_nat n)).
Definition fdiv (a b : Q) : Q := binary64 (a / b)%Q.
Definition fmul (a b : Q) : Q := binary64 (a * b)%Q.
Definition fadd (a b : Q) : Q := binary64 (a + b)%Q.

(** The unit roundoff of doubles, 2^-53. *)
Definition ulp53 : Q := pow2 (-53).

(** The same operations in the IEEE 754 arithmetic of the standard
    library, for comparison. *)
Definition sf_value (f : SpecFloat.spec_float) : Q :=
  match f with
  | SpecFloat.S754_finite s m e =>
      Qred ((if s then -1 else 1) * inject_Z (Z.pos m) * pow2 e)
  | _ => 0%Q
  end.

Definition sf_of_nat (n : nat) : SpecFloat.spec_float :=
  SpecFloat.binary_normalize 53 1024 (Z.of_nat n) 0 false.

Definition sf_percentage (count total : nat) : SpecFloat.spec_float :=
  SpecFloat.SFmul 53 1024
    (SpecFloat.SFdiv 53 1024 (sf_of_nat count) (sf_of_nat total))
    (sf_of_nat 100).

(** ** The dashboard: summary figures, filters and breakdowns *)

Definition Qc_of_nat (n : nat) : Qc := Qc_of_Z (Z.of_nat n).

(** [len(df)] *)
Definition total_docs (df : DataFrame) : nat := df_len df.

(** [series.mean()] of a numeric column: missing cells are skipped, the
    mean of no value at all is NaN ([None]).  The mean is the exact one:
    the rounding of the sum and of the division is not modelled, and no
    property below depends on the value of a mean. *)
Definition series_mean (vs : list value) : option Qc :=
  let nums := omap (λ v, match v with VNum q => Some q | _ => None end) vs in
  match nums with
  | [] => None
  | _ => Some (foldr Qcplus (Q2Qc 0) nums / Qc_of_nat (length nums))%Qc
  end.

(** [df['vader_score'].mean()] *)
Definition avg_vader (df : DataFrame) : result (option Qc) :=
  vs ← getitem "vader_score" df; Ok (series_mean vs).

(** [df['subreddit'].nunique()] *)
Definition active_subs (df : DataFrame) : result nat :=
  vs ← getitem "subreddit" df; Ok (nunique vs).

(** [df['transformer_label'].mode()[0].title()] *)
Definition dominant_sent (df : DataFrame) : result value :=
  vs ← getitem "transformer_label" df;
  m ← series_first (mode vs);
  scalar_str_method "title" str_title m.

Record kpis := mkKpis {
  kpi_total : nat;
  kpi_avg_vader : option Qc;
  kpi_active_subs : nat;
  kpi_dominant : value;
}.

(** Lines 224-245: the script stops with a notice ([None]) when the loaded
    frame is empty, and computes the four figures otherwise. *)
Definition executive_summary (df : DataFrame) : result (option kpis) :=
  if df_empty df then Ok None
  else
    let total := total_docs df in
    avg ← avg_vader df;
    subs ← active_subs df;
    dom ← dominant_sent df;
    Ok (Some (mkKpis total avg subs dom)).

(** [(count / total) * 100], lines 267-269.  The count is an integer of
    numpy (or the default 0) and the total a Python integer: both are
    converted to doubles, divided, and the quotient is multiplied by 100,
    each step rounding.  The total is not 0 where the code divides: the
    function has returned before on an empty frame. *)
Definition percentage (count total : nat) : Q :=
  fmul (fdiv (float_of_nat count) (float_of_nat total)) 100.

(** The exact value a percentage stands for: the count divided by the
    total, times 100. *)
Definition share (count total : nat) : Q :=
  (100 * (inject_Z (Z.of_nat count) / inject_Z (Z.of_nat total)))%Q.

(** [display_sentiment_bars]: the positive, neutral and negative
    percentages it renders, [None] when it returns early on an empty
    frame. *)
Definition display_sentiment_bars (o : argsort) (df : DataFrame)
  : result (option (Q * Q * Q)) :=
  if df_empty df then Ok None
  else
    let total := df_len df in
    labels ← getitem "transformer_label" df;
    let counts := value_counts o labels in
    let pos_pct := percentage (counts_get (VStr "positive") counts) total in
    let neu_pct := percentage (counts_get (VStr "neutral") counts) total in
    let neg_pct := percentage (counts_get (VStr "negative") counts) total in
    Ok (Some (pos_pct, neu_pct, neg_pct)).

(** [df['transformer_label'].value_counts()], the table behind the pie. *)
Definition sent_counts (o : argsort) (df : DataFrame)
  : result (list (value * nat)) :=
  vs ← getitem "transformer_label" df; Ok (value_counts o vs).

(** [df['subreddit'].value_counts().head(n)] *)
Definition top_subreddits (o : argsort) (n : nat) (df : DataFrame)
  : result (list (value * nat)) :=
  vs ← getitem "subreddit" df; Ok (take n (value_counts o vs)).

(** Line 314: the dashboard shows seven of them. *)
Definition sub_counts (o : argsort) (df : DataFrame)
  : result (list (value * nat)) :=
  top_subreddits o 7 df.

(** [sorted(df['subreddit'].unique())] *)
Definition all_options (df : DataFrame) : result (list value) :=
  vs ← getitem "subreddit" df; Ok (stable_sort value_leb (unique vs)).

(** Lines 356-359 *)
Definition sentiments_to_show (chk_pos chk_neu chk_neg : bool) : list value :=
  (if chk_pos then [VStr "positive"] else []) ++
  (if chk_neu then [VStr "neutral"] else []) ++
  (if chk_neg then [VStr "negative"] else []).

(** Lines 362-366: the three membership masks, and-ed, select the rows. *)
Definition apply_filters (selected_subs selected_types sentiments : list value)
    (df : DataFrame) : result DataFrame :=
  subs ← getitem "subreddit" df;
  types ← getitem "type" df;
  labels ← getitem "transformer_label" df;
  Ok (df_mask (mask_and (mask_and (isin selected_subs subs)
                                  (isin selected_types types))
                        (isin sentiments labels)) df).

(** The names the script binds: the filter statement reads [df] and binds
    [filtered_df]. *)
Definition exec_filter (selected_subs selected_types sentiments : list value)
    (names : gmap string DataFrame) : result (gmap string DataFrame) :=
  match names !! "df" with
  | Some df =>
      out ← apply_filters selected_subs selected_types sentiments df;
      Ok (<["filtered_df" := out]> names)
  | None => Raise (KeyError "df")
  end.

(** Lines 369-373: the breakdown is computed for a non-empty selection. *)
Definition grouped_sent (filtered_df : DataFrame)
  : result (option (list ((value * value) * nat))) :=
  if negb (df_empty filtered_df)
  then g ← groupby_size "subreddit" "transformer_label" filtered_df; Ok (Some g)
  else Ok None.

(** Lines 418-420, for a link that is a text: a link that does not start
    with "http" is taken as a path on reddit.com.  An empty link stays
    empty, and no link is shown then (line 422). *)
Definition feed_link (link : string) : string :=
  if negb (bool_decide (link = "")) && negb (String.prefix "http" link)
  then "https://www.reddit.com" +:+ link
  else link.

(** Line 409, for a preview that is a text: the caption under the title
    of a post. *)
Definition post_caption (body_preview : string) : string :=
  if (200 <? String.length body_preview)%nat
  then str_prefix 200 body_preview +:+ "..."
  else body_preview.

(** ** Datasets *)

(** The labels of the data model. *)
Definition canonical_labels : list value :=
  [VStr "positive"; VStr "neutral"; VStr "negative"].

(** The row a filter retains. *)
Definition retained (subs kinds labels : list value) (r : row) : Prop :=
  cell "subreddit" r ∈ subs ∧ cell "type" r ∈ kinds
  ∧ cell "transformer_label" r ∈ labels.

#[global] Instance retained_dec subs kinds labels r :
  Decision (retained subs kinds labels r).
Proof. unfold retained. apply _. Defined.


(** The order the ranking of subreddits is said to follow: larger count
    first, and among equal counts the smaller name first. *)
Definition count_desc_name_asc (a b : value * nat) : bool :=
  (b.2 <? a.2)%nat || ((a.2 =? b.2)%nat && value_leb a.1 b.1).

(** The distance up to which the percentages are said to add up to 100. *)
Definition rounding_epsilon : Q := 1 # 10000000000000.

(** ** Sample data *)

Definition sample_parse_numeric (v : value) : option Qc := None.
Definition sample_parse_datetime (vs : list value) (v : value) : option Z := None.
Definition sample_strftime (t : Z) : string := "2026-01-01 00:00:00".

Definition sample_post (id sub label : string) (score : Qc) (t : Z)
  : document :=
  mkDocument (VStr id)
    (list_to_map [("subreddit", VStr sub); ("author", VStr "alice");
                  ("timestamp", VTime t); ("title", VStr "A title");
                  ("selftext", VStr ""); ("url", VStr "/r/x/1");
                  ("vader_score", VNum score);
                  ("transformer_label", VStr label)]).

Definition sample_comment (id sub label body : string) (score : Qc) (t : Z)
  : document :=
  mkDocument (VStr id)
    (list_to_map [("subreddit", VStr sub); ("author", VStr "bob");
                  ("timestamp", VTime t); ("body", VStr body);
                  ("vader_score", VNum score);
                  ("transformer_label", VStr label)]).

(** The scenario of the specification: three rows, two subreddits, one
    row per label. *)
Definition sample_store : store :=
  mkStore (λ coll,
    if decide (coll = "posts") then
      [sample_post "p1" "a" "positive" (Q2Qc (1 # 2)) 300;
       sample_post "p2" "a" "NEGATIVE" (Q2Qc (-3 # 10)) 200]
    else if decide (coll = "comments") then
      [sample_comment "c1" "b" "neutral" "short" (Q2Qc 0) 100]
    else []).

Definition empty_store : store := mkStore (λ _, []).

(** One post whose subreddit and label are stored as empty strings. *)
Definition blank_store : store :=
  mkStore (λ coll,
    if decide (coll = "posts")
    then [sample_post "p1" "" "" (Q2Qc (1 # 2)) 300]
    else []).

(** What the sample parsers load from the sample store at clock reading
    0, and from the store of blank strings. *)
Definition sample_loaded : result loaded :=
  load_data_result sample_parse_numeric sample_parse_datetime sample_strftime
    0 sample_store.

Definition sample_dataset : DataFrame :=
  match sample_loaded with
  | Ok (df, _) => df
  | Raise _ => empty_frame
  end.

Definition blank_loaded : result loaded :=
  load_data_result sample_parse_numeric sample_parse_datetime sample_strftime
    0 blank_store.

Definition blank_dataset : DataFrame :=
  match blank_loaded with
  | Ok (df, _) => df
  | Raise _ => empty_frame
  end.

(** The state of a process that has not loaded anything yet. *)
Definition fresh_state : app_state := mkAppState None [].

(** One post that carries no [vader_score] field, and one that carries no
    [transformer_label] field. *)
Definition post_without (missing : string) : document :=
  mkDocument (VStr "p1")
    (delete missing (doc_fields (sample_post "p1" "a" "positive" (Q2Qc 0) 300))).

Definition store_without (missing : string) : store :=
  mkStore (λ coll,
    if decide (coll = "posts") then [post_without missing] else []).

Definition sample_row (sub kind label : string) : row :=
  list_to_map [("subreddit", VStr sub); ("type", VStr kind);
               ("transformer_label", VStr label);
               ("vader_score", VNum (Q2Qc 0)); ("timestamp", VTime 0)].

Definition sample_columns : gset string :=
  list_to_set ["subreddit"; "type"; "transformer_label"; "vader_score";
               "timestamp"].

Definition sample_frame : DataFrame :=
  mkDataFrame sample_columns
    [sample_row "a" "Post" "positive"; sample_row "a" "Post" "negative";
     sample_row "b" "Comment" "neutral"].

(** A frame as the loader has it before normalising: a label in capitals
    and a row without subreddit; and the same frame normalised. *)
Definition raw_frame : DataFrame :=
  mkDataFrame sample_columns
    [sample_row "a" "Post" "POSITIVE";
     delete "subreddit" (sample_row "b" "Comment" "Neutral")].

Definition normalized_raw_frame : DataFrame :=
  match normalize sample_parse_numeric sample_parse_datetime raw_frame with
  | Ok df => df
  | Raise _ => empty_frame
  end.

(** A frame with the columns of a Dataset and no row: what a filter that
    retains nothing returns. *)
Definition no_rows_frame : DataFrame := mkDataFrame sample_columns [].

(** Two subreddits with one row each, the later name first, and the same
    two rows in the other order. *)
Definition tied_frame : DataFrame :=
  mkDataFrame sample_columns
    [sample_row "b" "Post" "positive"; sample_row "a" "Post" "positive"].

Definition swapped_tied_frame : DataFrame :=
  mkDataFrame sample_columns
    [sample_row "a" "Post" "positive"; sample_row "b" "Post" "positive"].

(** Four comments: one with a body of 120 characters, one with a short
    body, one stored without a body, and one whose body is a number. *)
Definition long_body : string :=
  "0123456789012345678901234567890123456789" +:+
  "0123456789012345678901234567890123456789" +:+
  "0123456789012345678901234567890123456789".

Definition comment_without_body : document :=
  mkDocument (VStr "c3")
    (delete "body"
       (doc_fields (sample_comment "c3" "b" "neutral" "x" (Q2Qc 0) 200))).

Definition comment_with_number : document :=
  mkDocument (VStr "c4")
    (<["body" := VNum (Q2Qc 7)]>
       (doc_fields (sample_comment "c4" "b" "neutral" "x" (Q2Qc 0) 100))).

Definition comments_store : store :=
  mkStore (λ coll,
    if decide (coll = "comments") then
      [sample_comment "c1" "a" "positive" long_body (Q2Qc 0) 400;
       sample_comment "c2" "a" "negative" "hello" (Q2Qc 0) 300;
       comment_without_body; comment_with_number]
    else []).

Definition comments_loaded : result loaded :=
  load_data_result sample_parse_numeric sample_parse_datetime sample_strftime
    0 comments_store.

Definition comments_dataset : DataFrame :=
  match comments_loaded with
  | Ok (df, _) => df
  | Raise _ => empty_frame
  end.
(** * Properties *)

(** ** Lists *)

Lemma filter_Forall_id {A} (P : A → Prop) `{∀ x, Decision (P x)} (l : list A) :
  Forall P l → filter P l = l.
Proof.
  induction 1 as [|x l Hx _ IH]; [done|].
  by rewrite filter_cons, decide_True, IH.
Qed.

Lemma filter_none {A} (P : A → Prop) `{∀ x, Decision (P x)} (l : list A) :
  (∀ x, ¬ P x) → filter P l = [].
Proof.
  intros HP. induction l as [|x l IH]; [done|].
  by rewrite filter_cons, decide_False, IH.
Qed.

(** ** Counting and sorting *)

Section counting_facts.
Context {A : Type} `{EqDecision A}.
Implicit Types (l : list A) (x : A).

Lemma elem_of_unique l x : x ∈ unique l ↔ x ∈ l.
Proof.
  induction l as [|y l IH]; [done|]. cbn [unique].
  rewrite !elem_of_cons, list_elem_of_filter, IH.
  destruct (decide (x = y)); tauto.
Qed.

Lemma NoDup_unique l : NoDup (unique l).
Proof.
  induction l as [|y l IH]; cbn [unique]; [constructor|].
  constructor; [|by apply NoDup_filter].
  rewrite list_elem_of_filter. tauto.
Qed.

Lemma unique_nil_inv l : unique l = [] → l = [].
Proof. by destruct l. Qed.

Lemma count_of_pos l x : x ∈ l → 0 < count_of x l.
Proof.
  intros Hx. unfold count_of.
  assert (x ∈ filter (λ y, y = x) l) as Hin by by apply list_elem_of_filter.
  destruct (filter (λ y, y = x) l); [by apply elem_of_nil in Hin|simpl; lia].
Qed.

Lemma count_of_notin l x : x ∉ l → count_of x l = 0.
Proof.
  intros Hx. unfold count_of.
  induction l as [|y l IH]; [done|].
  apply not_elem_of_cons in Hx as [Hne Hx].
  rewrite filter_cons, decide_False by done. by apply IH.
Qed.

Lemma count_of_le_length l x : count_of x l ≤ length l.
Proof. apply length_filter. Qed.

Lemma tally_keys l : (tally l).*1 = unique l.
Proof.
  unfold tally. generalize (unique l) as u.
  induction u as [|y u IH]; [done|]. cbn [fmap list_fmap] in *.
  by rewrite IH.
Qed.

Lemma elem_of_tally l x n :
  (x, n) ∈ tally l ↔ x ∈ l ∧ n = count_of x l.
Proof.
  unfold tally. rewrite list_elem_of_fmap. split.
  - intros (y & Heq & Hy). simplify_eq. split; [|done].
    by apply elem_of_unique.
  - intros [Hx ->]. exists x. by rewrite elem_of_unique.
Qed.

Lemma tally_length l : length (tally l) = length (unique l).
Proof. unfold tally. by rewrite length_fmap. Qed.
End counting_facts.

Section sorting_facts.
Context {A : Type} (precedes : A → A → bool).
Implicit Types (l : list A) (x : A).

Let before (x y : A) : Prop := precedes x y = true.

Lemma insert_sorted_perm x l : insert_sorted precedes x l ≡ₚ x :: l.
Proof.
  induction l as [|y l IH]; [done|]. cbn [insert_sorted].
  destruct (precedes x y); [done|]. by rewrite IH, Permutation_swap.
Qed.

Lemma stable_sort_perm l : stable_sort precedes l ≡ₚ l.
Proof.
  induction l as [|x l IH]; [done|]. cbn [stable_sort].
  by rewrite insert_sorted_perm, IH.
Qed.

Lemma elem_of_stable_sort l x : x ∈ stable_sort precedes l ↔ x ∈ l.
Proof. by rewrite stable_sort_perm. Qed.

Lemma stable_sort_length l : length (stable_sort precedes l) = length l.
Proof. by rewrite stable_sort_perm. Qed.

(** Sorting a list that is in order already changes nothing. *)
Lemma stable_sort_sorted l :
  Sorted before l → stable_sort precedes l = l.
Proof.
  induction 1 as [|x l _ IH Hhd]; [done|]. cbn [stable_sort]. rewrite IH.
  destruct Hhd as [|y l Hxy]; [done|]. cbn [insert_sorted].
  unfold before in Hxy. by rewrite Hxy.
Qed.

(** Elements of one rank keep their relative order. *)
Lemma filter_insert_sorted (P : A → Prop) `{∀ x, Decision (P x)} x l :
  (∀ y, P x → P y → precedes x y = true) →
  filter P (insert_sorted precedes x l) = filter P (x :: l).
Proof.
  intros Hrank. induction l as [|y l IH]; [done|]. cbn [insert_sorted].
  destruct (precedes x y) eqn:Hxy; [done|].
  rewrite (filter_cons P y), IH, !(filter_cons P x), (filter_cons P y).
  destruct (decide (P x)) as [Hx|]; [|done].
  destruct (decide (P y)) as [Hy|]; [|done].
  rewrite Hrank in Hxy; done.
Qed.

Lemma filter_stable_sort (P : A → Prop) `{∀ x, Decision (P x)} l :
  (∀ x y, P x → P y → precedes x y = true) →
  filter P (stable_sort precedes l) = filter P l.
Proof.
  intros Hrank. induction l as [|x l IH]; [done|]. cbn [stable_sort].
  rewrite filter_insert_sorted by auto. by rewrite !filter_cons, IH.
Qed.

Section total.
Hypothesis precedes_total : ∀ x y, precedes x y = false → precedes y x = true.

Lemma insert_sorted_HdRel x y l :
  before y x → HdRel before y l → HdRel before y (insert_sorted precedes x l).
Proof.
  intros Hyx Hhd. destruct Hhd as [|z l Hyz]; cbn [insert_sorted].
  - by constructor.
  - destruct (precedes x z); by constructor.
Qed.

Lemma insert_sorted_Sorted x l :
  Sorted before l → Sorted before (insert_sorted precedes x l).
Proof.
  induction 1 as [|y l Hl IH Hhd]; cbn [insert_sorted].
  - by repeat constructor.
  - destruct (precedes x y) eqn:Hxy.
    + constructor; [by constructor|by constructor].
    + constructor; [done|].
      apply insert_sorted_HdRel; [|done]. by apply precedes_total.
Qed.

Lemma stable_sort_Sorted l : Sorted before (stable_sort precedes l).
Proof.
  induction l as [|x l IH]; cbn [stable_sort]; [constructor|].
  by apply insert_sorted_Sorted.
Qed.
End total.
End sorting_facts.

(** ** The filter engine *)

Lemma select_rows_masks subs kinds labels (rs : list row) :
  select_rows
    (mask_and (mask_and (isin subs (cell "subreddit" <$> rs))
                        (isin kinds (cell "type" <$> rs)))
              (isin labels (cell "transformer_label" <$> rs))) rs
  = filter (retained subs kinds labels) rs.
Proof.
  induction rs as [|r rs IH]; [done|].
  cbn [fmap list_fmap isin mask_and zip_with select_rows] in *.
  unfold isin, mask_and in IH. rewrite IH. rewrite filter_cons.
  destruct (decide (retained subs kinds labels r)) as [(Hs & Hk & Hl)|Hn].
  - by rewrite !bool_decide_eq_true_2.
  - destruct (bool_decide (cell "subreddit" r ∈ subs)) eqn:E1;
      destruct (bool_decide (cell "type" r ∈ kinds)) eqn:E2;
      destruct (bool_decide (cell "transformer_label" r ∈ labels)) eqn:E3;
      simpl; try done.
    exfalso. apply Hn. unfold retained.
    by apply bool_decide_eq_true in E1, E2, E3.
Qed.

Lemma apply_filters_ok subs kinds labels df :
  "subreddit" ∈ columns df → "type" ∈ columns df →
  "transformer_label" ∈ columns df →
  apply_filters subs kinds labels df
  = Ok (mkDataFrame (columns df) (filter (retained subs kinds labels) (rows df))).
Proof.
  intros Hs Hk Hl. unfold apply_filters, getitem.
  rewrite !decide_True by done. cbn [mbind result_bind].
  unfold df_mask. by rewrite select_rows_masks.
Qed.

(** C1.  On a frame that has the three filtered columns, the filter
    returns exactly the rows whose subreddit, kind and label are each in
    the corresponding selection: the retained rows are the rows of the
    input that pass, in the input's order and as they were (the output is
    the input's row list with the other rows left out), the columns are
    untouched, and the statement binds [filtered_df] without changing the
    frame bound to [df]. *)
Theorem filter_retention subs kinds labels df names :
  "subreddit" ∈ columns df → "type" ∈ columns df →
  "transformer_label" ∈ columns df →
  names !! "df" = Some df →
  ∃ out,
    apply_filters subs kinds labels df = Ok out
    ∧ columns out = columns df
    ∧ rows out = filter (retained subs kinds labels) (rows df)
    ∧ rows out `sublist_of` rows df
    ∧ (∀ r, r ∈ rows out ↔
            r ∈ rows df ∧ cell "subreddit" r ∈ subs ∧ cell "type" r ∈ kinds
            ∧ cell "transformer_label" r ∈ labels)
    ∧ ∃ names', exec_filter subs kinds labels names = Ok names'
        ∧ names' !! "df" = Some df ∧ names' !! "filtered_df" = Some out.
Proof.
  intros Hs Hk Hl Hdf. eexists. split; [by apply apply_filters_ok|].
  cbn [columns rows]. split; [done|]. split; [done|].
  split; [apply sublist_filter|]. split.
  - intros r. rewrite list_elem_of_filter. unfold retained. tauto.
  - unfold exec_filter. rewrite Hdf, apply_filters_ok by done.
    cbn [mbind result_bind]. eexists. split; [done|].
    split; [by rewrite lookup_insert_ne | by rewrite lookup_insert_eq].
Qed.

Lemma filter_retention_witness :
  ∃ out,
    apply_filters [VStr "a"] [VStr "Post"; VStr "Comment"] canonical_labels
      sample_frame = Ok out
    ∧ columns out = columns sample_frame
    ∧ rows out = filter (retained [VStr "a"] [VStr "Post"; VStr "Comment"]
                           canonical_labels) (rows sample_frame)
    ∧ rows out `sublist_of` rows sample_frame
    ∧ (∀ r, r ∈ rows out ↔
            r ∈ rows sample_frame ∧ cell "subreddit" r ∈ [VStr "a"]
            ∧ cell "type" r ∈ [VStr "Post"; VStr "Comment"]
            ∧ cell "transformer_label" r ∈ canonical_labels)
    ∧ ∃ names', exec_filter [VStr "a"] [VStr "Post"; VStr "Comment"]
                  canonical_labels {["df" := sample_frame]} = Ok names'
        ∧ names' !! "df" = Some sample_frame
        ∧ names' !! "filtered_df" = Some out.
Proof.
  apply (filter_retention [VStr "a"] [VStr "Post"; VStr "Comment"]
           canonical_labels sample_frame {["df" := sample_frame]}).
  - apply (bool_decide_unpack _). vm_compute. exact I.
  - apply (bool_decide_unpack _). vm_compute. exact I.
  - apply (bool_decide_unpack _). vm_compute. exact I.
  - reflexivity.
Defined.

(** C7.  On a frame that has the three filtered columns: a selection that
    holds every subreddit, kind and label occurring in the frame gives the
    frame back; the default subreddit selection, the sorted distinct
    subreddits of the frame, holds every subreddit occurring in it; and an
    empty subreddit selection gives the frame with no row, whatever the
    other two selections are. *)
Theorem filter_identity_and_annihilation df :
  "subreddit" ∈ columns df → "type" ∈ columns df →
  "transformer_label" ∈ columns df →
  (∀ subs kinds labels,
      Forall (λ r, cell "subreddit" r ∈ subs ∧ cell "type" r ∈ kinds
                   ∧ cell "transformer_label" r ∈ labels) (rows df) →
      apply_filters subs kinds labels df = Ok df)
  ∧ (∃ all_subs, all_options df = Ok all_subs
       ∧ Forall (λ r, cell "subreddit" r ∈ all_subs) (rows df))
  ∧ (∀ kinds labels, ∃ out,
       apply_filters [] kinds labels df = Ok out
       ∧ rows out = [] ∧ df_len out = 0 ∧ df_empty out = true).
Proof.
  intros Hs Hk Hl. split; [|split].
  - intros subs kinds labels Hall. rewrite apply_filters_ok by done.
    rewrite filter_Forall_id by done. by destruct df.
  - unfold all_options, getitem. rewrite decide_True by done.
    cbn [mbind result_bind]. eexists. split; [done|].
    apply Forall_forall. intros r Hr.
    rewrite elem_of_stable_sort, elem_of_unique.
    apply list_elem_of_fmap. by exists r.
  - intros kinds labels. rewrite apply_filters_ok by done.
    eexists. split; [done|]. cbn [rows].
    rewrite filter_none; [done|].
    intros r (Hin & _). by apply elem_of_nil in Hin.
Qed.

Lemma filter_identity_and_annihilation_witness :
  (∀ subs kinds labels,
      Forall (λ r, cell "subreddit" r ∈ subs ∧ cell "type" r ∈ kinds
                   ∧ cell "transformer_label" r ∈ labels) (rows sample_frame) →
      apply_filters subs kinds labels sample_frame = Ok sample_frame)
  ∧ (∃ all_subs, all_options sample_frame = Ok all_subs
       ∧ Forall (λ r, cell "subreddit" r ∈ all_subs) (rows sample_frame))
  ∧ (∀ kinds labels, ∃ out,
       apply_filters [] kinds labels sample_frame = Ok out
       ∧ rows out = [] ∧ df_len out = 0 ∧ df_empty out = true).
Proof.
  apply (filter_identity_and_annihilation sample_frame).
  - apply (bool_decide_unpack _). vm_compute. exact I.
  - apply (bool_decide_unpack _). vm_compute. exact I.
  - apply (bool_decide_unpack _). vm_compute. exact I.
Defined.

(** ** Ranking by count *)

Lemma Sorted_weaken {A} (R1 R2 : A → A → Prop) (l : list A) :
  (∀ x y, R1 x y → R2 x y) → Sorted R1 l → Sorted R2 l.
Proof.
  intros HR. induction 1 as [|x l _ IH Hhd]; constructor; [done|].
  destruct Hhd; constructor; auto.
Qed.

Lemma count_desc_total {K} (a b : K * nat) :
  count_desc a b = false → count_desc b a = true.
Proof.
  unfold count_desc. intros Hab%Nat.leb_gt. apply Nat.leb_le. lia.
Qed.

Lemma count_desc_le {K} (a b : K * nat) : count_desc a b = true ↔ b.2 ≤ a.2.
Proof. unfold count_desc. apply Nat.leb_le. Qed.

#[local] Instance count_order_trans {K} :
  Transitive (λ a b : K * nat, b.2 ≤ a.2).
Proof. intros a b c. lia. Qed.

(** *** The sort and its contract *)

Lemma take_all_positions {A} `{Inhabited A} (l : list A) :
  (λ i, l !!! i) <$> seq 0 (length l) = l.
Proof.
  apply list_eq. intros i. rewrite list_lookup_fmap.
  destruct (decide (i < length l)) as [Hi|Hi].
  - rewrite lookup_seq_lt by done. cbn.
    symmetry. by apply list_lookup_lookup_total_lt.
  - rewrite lookup_seq_ge by lia. cbn. symmetry. apply lookup_ge_None. lia.
Qed.

Lemma snd_lookup_total (t : list (value * nat)) i :
  t.*2 !!! i = (t !!! i).2.
Proof.
  revert i. induction t as [|x t IH]; intros [|i]; cbn; done.
Qed.

Lemma Sorted_fmap_in {A B} (R1 : A → A → Prop) (R2 : B → B → Prop)
    (f : A → B) (l : list A) :
  (∀ x y, x ∈ l → y ∈ l → R1 x y → R2 (f x) (f y)) →
  Sorted R1 l → Sorted R2 (f <$> l).
Proof.
  intros Hf Hs. induction Hs as [|x l _ IH Hhd]; [constructor|].
  cbn. constructor.
  - apply IH. intros a b Ha Hb. apply Hf; by apply elem_of_cons; right.
  - destruct Hhd as [|y l Hxy]; constructor.
    apply Hf; [apply list_elem_of_here| |done].
    apply elem_of_cons; right. apply list_elem_of_here.
Qed.

Lemma zip_positions_counts (counts : list nat) i c :
  (i, c) ∈ zip (seq 0 (length counts)) counts → counts !!! i = c.
Proof.
  intros Hin. apply list_elem_of_lookup in Hin as [k Hk].
  apply lookup_zip_with_Some in Hk as (i' & c' & [= <- <-] & Hi & Hc).
  apply lookup_seq in Hi as [-> _]. by apply list_lookup_total_correct.
Qed.

Lemma stable_positions_perm counts :
  stable_positions counts ≡ₚ seq 0 (length counts).
Proof.
  unfold stable_positions. rewrite stable_sort_perm.
  by rewrite fst_zip by (rewrite length_seq; lia).
Qed.

Lemma stable_positions_sorted counts :
  Sorted (λ i j, counts !!! j ≤ counts !!! i) (stable_positions counts).
Proof.
  unfold stable_positions.
  apply (Sorted_fmap_in (λ a b, count_desc a b = true)).
  - intros [i c] [j d] Hi Hj Hle. apply count_desc_le in Hle. cbn in *.
    apply elem_of_stable_sort, zip_positions_counts in Hi, Hj.
    by rewrite Hi, Hj.
  - apply stable_sort_Sorted. intros a b. apply count_desc_total.
Qed.

Lemma reversing_positions_perm counts :
  reversing_positions counts ≡ₚ seq 0 (length counts).
Proof.
  unfold reversing_positions. rewrite stable_sort_perm, reverse_Permutation.
  by rewrite fst_zip by (rewrite length_seq; lia).
Qed.

Lemma reversing_positions_sorted counts :
  Sorted (λ i j, counts !!! j ≤ counts !!! i) (reversing_positions counts).
Proof.
  unfold reversing_positions.
  apply (Sorted_fmap_in (λ a b, count_desc a b = true)).
  - intros [i c] [j d] Hi Hj Hle. apply count_desc_le in Hle. cbn in *.
    apply elem_of_stable_sort, elem_of_reverse, zip_positions_counts in Hi, Hj.
    by rewrite Hi, Hj.
  - apply stable_sort_Sorted. intros a b. apply count_desc_total.
Qed.

(** The two sorts of the model meet the contract. *)
Definition stable_argsort : argsort :=
  mkArgsort stable_positions stable_positions_perm stable_positions_sorted.

Definition reversing_argsort : argsort :=
  mkArgsort reversing_positions reversing_positions_perm
    reversing_positions_sorted.

(** *** Count tables *)

Lemma value_counts_perm o vs :
  value_counts o vs ≡ₚ tally (dropna_values vs).
Proof.
  unfold value_counts. cbv zeta.
  rewrite (indexer_perm o), length_fmap. by rewrite take_all_positions.
Qed.

Lemma value_counts_nil o : value_counts o [] = [].
Proof. apply Permutation_nil_r. by rewrite value_counts_perm. Qed.

Lemma value_counts_Sorted o vs :
  Sorted (λ a b : value * nat, b.2 ≤ a.2) (value_counts o vs).
Proof.
  unfold value_counts. cbv zeta.
  eapply Sorted_fmap_in; [|apply (indexer_sorted o)].
  intros i j _ _. cbv beta. by rewrite !snd_lookup_total.
Qed.

Lemma value_counts_StronglySorted o vs :
  StronglySorted (λ a b : value * nat, b.2 ≤ a.2) (value_counts o vs).
Proof. apply Sorted_StronglySorted; [apply _|]. apply value_counts_Sorted. Qed.

Lemma count_of_dropna (s : value) vs :
  s ≠ VNull → count_of s (dropna_values vs) = count_of s vs.
Proof.
  intros Hs. unfold count_of, dropna_values.
  induction vs as [|v vs IH]; [done|].
  rewrite (filter_cons (λ v, isna v = false)).
  destruct (decide (isna v = false)) as [Hv|Hv].
  - rewrite !filter_cons. destruct (decide (v = s)); simpl; by rewrite IH.
  - rewrite filter_cons, decide_False; [done|].
    intros ->. by destruct s.
Qed.

Lemma elem_of_value_counts o vs s c :
  (s, c) ∈ value_counts o vs ↔ s ∈ vs ∧ s ≠ VNull ∧ c = count_of s vs.
Proof.
  rewrite value_counts_perm, elem_of_tally.
  unfold dropna_values. rewrite list_elem_of_filter. split.
  - intros [[Hna Hin] ->]. assert (s ≠ VNull) by (by intros ->).
    by rewrite count_of_dropna.
  - intros (Hin & Hs & ->). rewrite count_of_dropna by done.
    split; [|done]. split; [by destruct s|done].
Qed.

Lemma value_counts_keys_NoDup o vs : NoDup (value_counts o vs).*1.
Proof.
  rewrite value_counts_perm, tally_keys. apply NoDup_unique.
Qed.

Lemma value_counts_length o vs : length (value_counts o vs) = nunique vs.
Proof.
  unfold nunique. by rewrite value_counts_perm, tally_length.
Qed.

(** With the insertion sort, equal counts stay in order of first
    appearance; with the other sort they come out reversed. *)
Example value_counts_of_two_sorts :
  value_counts stable_argsort
    [VStr "b"; VStr "a"; VNull; VStr "c"; VStr "a"; VStr "d"; VStr "d"]
  = [(VStr "a", 2); (VStr "d", 2); (VStr "b", 1); (VStr "c", 1)]
  ∧ value_counts reversing_argsort
      [VStr "b"; VStr "a"; VNull; VStr "c"; VStr "a"; VStr "d"; VStr "d"]
    = [(VStr "d", 2); (VStr "a", 2); (VStr "c", 1); (VStr "b", 1)].
Proof. split; vm_compute; reflexivity. Qed.

(** Entries that are in order of count and hold no count twice are in
    order of count and name. *)
Lemma Sorted_distinct_counts (l : list (value * nat)) :
  Sorted (λ a b, b.2 ≤ a.2) l → NoDup l.*2 →
  Sorted (λ a b, count_desc_name_asc a b = true) l.
Proof.
  induction 1 as [|x l _ IH Hhd]; intros Hnd; [constructor|].
  cbn in Hnd. apply NoDup_cons in Hnd as [Hx Hnd].
  constructor; [by apply IH|].
  destruct Hhd as [|y l Hxy]; constructor.
  assert (x.2 ≠ y.2) as Hne.
  { intros Heq. apply Hx. cbn. rewrite Heq. apply list_elem_of_here. }
  unfold count_desc_name_asc. apply orb_true_iff. left.
  apply Nat.ltb_lt. lia.
Qed.

(** The sort reads the counts only: of two entries with the same count it
    puts the same position first whatever their keys are. *)
Lemma indexer_of_two_ties o :
  indexer o [1; 1] = [0; 1] ∨ indexer o [1; 1] = [1; 0].
Proof.
  pose proof (indexer_perm o [1; 1]) as Hp. cbn in Hp.
  symmetry in Hp. by apply Permutation_length_2_inv in Hp.
Qed.

(** C6, as stated, fails.  The ranking is sorted by count and by nothing
    else, the order among equal counts being the one the sort of the
    library leaves.  Whatever that sort does, it sees two equal counts and
    not the names: of the frame with one row in subreddit b followed by
    one row in subreddit a, and the frame with the same two rows in the
    other order, one is ranked b before a, which is not in order of count
    descending then name ascending, and sorting that ranking by this key
    changes it. *)
Lemma top_subreddits_ties_not_by_name :
  (∀ o, top_subreddits o 7 tied_frame = Ok [(VStr "b", 1); (VStr "a", 1)]
        ∨ top_subreddits o 7 swapped_tied_frame
          = Ok [(VStr "b", 1); (VStr "a", 1)])
  ∧ top_subreddits stable_argsort 7 tied_frame
    = Ok [(VStr "b", 1); (VStr "a", 1)]
  ∧ ¬ Sorted (λ a b, count_desc_name_asc a b = true)
        [(VStr "b", 1); (VStr "a", 1)]
  ∧ stable_sort count_desc_name_asc [(VStr "b", 1); (VStr "a", 1)]
    ≠ [(VStr "b", 1); (VStr "a", 1)].
Proof.
  split; [|split; [vm_compute; reflexivity|split]].
  - intros o.
    assert (∀ df, "subreddit" ∈ columns df →
              top_subreddits o 7 df
              = Ok (take 7 (value_counts o (cell "subreddit" <$> rows df))))
      as Htop.
    { intros df Hcol. unfold top_subreddits, getitem.
      by rewrite decide_True by done. }
    rewrite !Htop by (apply (bool_decide_unpack _); vm_compute; exact I).
    unfold value_counts. cbv zeta.
    replace (tally (dropna_values (cell "subreddit" <$> rows tied_frame)))
      with [(VStr "b", 1); (VStr "a", 1)] by (vm_compute; reflexivity).
    replace (tally (dropna_values
                      (cell "subreddit" <$> rows swapped_tied_frame)))
      with [(VStr "a", 1); (VStr "b", 1)] by (vm_compute; reflexivity).
    change ([(VStr "b", 1); (VStr "a", 1)].*2) with [1; 1].
    change ([(VStr "a", 1); (VStr "b", 1)].*2) with [1; 1].
    destruct (indexer_of_two_ties o) as [-> | ->]; [by left|by right].
  - intros Hs. inversion Hs as [|? ? _ Hhd]; subst.
    inversion Hhd as [|? ? Hba]; subst. by vm_compute in Hba.
  - by vm_compute.
Qed.

(** C6, amended.  On a frame with a subreddit column, whatever order the
    sort of the library gives to equal counts, [top_subreddits n] returns
    at most [n] entries (as many as there are distinct subreddits, when
    fewer); each entry is a subreddit of the frame with its number of rows
    and no subreddit is listed twice; the entries are in order of count,
    largest first, and no subreddit left out has more rows than a listed
    one; sorting the output again by count, largest first, with a sort
    that keeps equal counts in place leaves it unchanged.  Nothing orders
    equal counts by name; when no two listed counts are equal the entries
    are in order of count descending then name ascending, and sorting by
    that key leaves them unchanged. *)
Theorem top_subreddits_ranking o n df :
  "subreddit" ∈ columns df →
  let col := cell "subreddit" <$> rows df in
  ∃ out,
    top_subreddits o n df = Ok out
    ∧ length out ≤ n
    ∧ length out = n `min` nunique col
    ∧ (∀ s c, (s, c) ∈ out → s ∈ col ∧ s ≠ VNull ∧ c = count_of s col)
    ∧ NoDup out.*1
    ∧ Sorted (λ a b, b.2 ≤ a.2) out
    ∧ (∀ s, s ∈ col → s ≠ VNull → s ∉ out.*1 →
         ∀ s' c', (s', c') ∈ out → count_of s col ≤ c')
    ∧ stable_sort count_desc out = out
    ∧ (NoDup out.*2 →
       Sorted (λ a b, count_desc_name_asc a b = true) out
       ∧ stable_sort count_desc_name_asc out = out).
Proof.
  intros Hcol col. unfold top_subreddits, getitem.
  rewrite decide_True by done. cbn [mbind result_bind]. fold col.
  eexists. split; [done|].
  pose proof (value_counts_StronglySorted o col) as Hss.
  rewrite <-(take_drop n (value_counts o col)) in Hss.
  apply StronglySorted_app in Hss as (Hcross & Htake & _).
  split; [rewrite length_take; lia|].
  split; [by rewrite length_take, value_counts_length|].
  split; [|split; [|split; [|split; [|split]]]].
  - intros s c Hin. apply (elem_of_value_counts o).
    eapply elem_of_prefix; [done|apply prefix_take].
  - rewrite fmap_take. eapply sublist_NoDup; [|apply sublist_take].
    apply value_counts_keys_NoDup.
  - by apply StronglySorted_Sorted.
  - intros s Hs Hnn Hout s' c' Hin'.
    assert ((s, count_of s col) ∈ value_counts o col) as Hfull
      by by apply elem_of_value_counts.
    rewrite <-(take_drop n (value_counts o col)) in Hfull.
    apply elem_of_app in Hfull as [Hin|Hin].
    + exfalso. apply Hout. apply list_elem_of_fmap. by exists (s, count_of s col).
    + apply (Hcross _ _ Hin' Hin).
  - apply stable_sort_sorted.
    eapply Sorted_weaken; [|by apply StronglySorted_Sorted].
    intros a b. by rewrite count_desc_le.
  - intros Hnd.
    assert (Sorted (λ a b, count_desc_name_asc a b = true)
              (take n (value_counts o col))) as Hsorted.
    { apply Sorted_distinct_counts; [by apply StronglySorted_Sorted|done]. }
    split; [done|]. by apply stable_sort_sorted.
Qed.

Lemma top_subreddits_ranking_witness :
  let col := cell "subreddit" <$> rows sample_frame in
  ∃ out,
    top_subreddits stable_argsort 7 sample_frame = Ok out
    ∧ length out ≤ 7
    ∧ length out = 7 `min` nunique col
    ∧ (∀ s c, (s, c) ∈ out → s ∈ col ∧ s ≠ VNull ∧ c = count_of s col)
    ∧ NoDup out.*1
    ∧ Sorted (λ a b, b.2 ≤ a.2) out
    ∧ (∀ s, s ∈ col → s ≠ VNull → s ∉ out.*1 →
         ∀ s' c', (s', c') ∈ out → count_of s col ≤ c')
    ∧ stable_sort count_desc out = out
    ∧ (NoDup out.*2 →
       Sorted (λ a b, count_desc_name_asc a b = true) out
       ∧ stable_sort count_desc_name_asc out = out).
Proof.
  apply (top_subreddits_ranking stable_argsort 7 sample_frame).
  apply (bool_decide_unpack _). vm_compute. exact I.
Defined.
(** ** Frames *)

Lemma cell_insert_eq c v (r : row) : cell c (<[c := v]> r) = v.
Proof. unfold cell. by rewrite lookup_insert_eq. Qed.

Lemma cell_insert_ne c c' v (r : row) :
  c ≠ c' → cell c' (<[c := v]> r) = cell c' r.
Proof. intros ?. unfold cell. by rewrite lookup_insert_ne. Qed.

Lemma assign_cells_fmap c (f : row → value) (rs : list row) :
  assign_cells c (f <$> rs) rs = (λ r, <[c := f r]> r) <$> rs.
Proof.
  induction rs as [|r rs IH]; [done|].
  cbn [fmap list_fmap assign_cells hd tl] in *. by rewrite IH.
Qed.

Lemma setitem_any_rows c c' dflt df :
  rows (setitem_any c (df_get c' dflt df) df)
  = (λ r, <[c := if decide (c' ∈ columns df) then cell c' r else dflt]> r)
      <$> rows df.
Proof.
  unfold df_get. destruct (decide (c' ∈ columns df)); cbn [setitem_any].
  - unfold setitem. cbn [rows]. apply assign_cells_fmap.
  - done.
Qed.

Lemma setitem_any_columns c x df :
  columns (setitem_any c x df) = {[c]} ∪ columns df.
Proof. by destruct x. Qed.

Lemma df_empty_false df :
  df_empty df = false ↔ rows df ≠ [] ∧ columns df ≠ ∅.
Proof.
  unfold df_empty. rewrite orb_false_iff, !bool_decide_eq_false. tauto.
Qed.

Lemma record_of_id d : "_id" ∈ dom (record_of d).
Proof. unfold record_of. set_solver. Qed.

Lemma frame_of_documents_columns (ds : list document) c :
  c ∈ columns (frame_of_records (record_of <$> ds))
  ↔ ∃ d, d ∈ ds ∧ c ∈ dom (record_of d).
Proof.
  cbn [columns frame_of_records]. rewrite elem_of_union_list. split.
  - intros (X & HX & Hc). apply list_elem_of_fmap in HX as (r & -> & Hr).
    apply list_elem_of_fmap in Hr as (d & -> & Hd). eauto.
  - intros (d & Hd & Hc). exists (dom (record_of d)). split; [|done].
    apply list_elem_of_fmap. exists (record_of d). split; [done|].
    apply list_elem_of_fmap. eauto.
Qed.

Lemma frame_of_documents_empty (ds : list document) :
  df_empty (frame_of_records (record_of <$> ds)) = bool_decide (ds = []).
Proof.
  destruct ds as [|d ds]; [done|].
  rewrite bool_decide_eq_false_2 by done. apply df_empty_false.
  split; [done|]. intros Hempty.
  assert ("_id" ∈ columns (frame_of_records (record_of <$> d :: ds))) as Hid.
  { apply frame_of_documents_columns. exists d.
    split; [apply list_elem_of_here|apply record_of_id]. }
  rewrite Hempty in Hid. by apply elem_of_empty in Hid.
Qed.

Lemma record_of_field d c :
  c ≠ "_id" → record_of d !! c = doc_fields d !! c.
Proof. intros ?. unfold record_of. by rewrite lookup_insert_ne. Qed.

(** ** The error monad *)

Lemma bind_Ok_inv {A B} (r : result A) (k : A → result B) b :
  r ≫= k = Ok b → ∃ a, r = Ok a ∧ k a = Ok b.
Proof. destruct r as [a|e]; [eauto|done]. Qed.

Lemma getitem_Ok c df : c ∈ columns df → getitem c df = Ok (cell c <$> rows df).
Proof. intros ?. unfold getitem. by rewrite decide_True. Qed.

Lemma getitem_Raise c df : c ∉ columns df → getitem c df = Raise (KeyError c).
Proof. intros ?. unfold getitem. by rewrite decide_False. Qed.

Lemma getitem_Ok_inv c df vs :
  getitem c df = Ok vs → c ∈ columns df ∧ vs = cell c <$> rows df.
Proof. unfold getitem. destruct (decide _); [|done]. by intros [= <-]. Qed.

Lemma str_accessor_Ok_inv vs vs' : str_accessor vs = Ok vs' → vs' = vs.
Proof. unfold str_accessor. destruct (_ || _); [|done]. by intros [= <-]. Qed.

(** ** Strings *)

Lemma lower_ascii_idemp c : lower_ascii (lower_ascii c) = lower_ascii c.
Proof. by destruct c as [[] [] [] [] [] [] [] []]. Qed.

Lemma str_lower_idemp s : str_lower (str_lower s) = str_lower s.
Proof.
  induction s as [|c s IH]; [done|]. cbn [str_lower].
  by rewrite lower_ascii_idemp, IH.
Qed.

Lemma str_prefix_split n s :
  ∃ rest, s = str_prefix n s +:+ rest
          ∧ String.length (str_prefix n s) = n `min` String.length s.
Proof.
  unfold str_prefix. revert n.
  induction s as [|c s IH]; intros [|n]; [by exists ""..|by exists (String c s)|].
  destruct (IH n) as (rest & Hs & Hlen). exists rest.
  split.
  - change (String c s = String c (String.substring 0 n s +:+ rest)).
    by rewrite <-Hs.
  - change (S (String.length (String.substring 0 n s))
            = S (n `min` String.length s)).
    by rewrite Hlen.
Qed.

Lemma str_prefix_short n s : String.length s ≤ n → str_prefix n s = s.
Proof.
  unfold str_prefix. revert n.
  induction s as [|c s IH]; intros [|n] Hlen; cbn in *; try done; [lia|].
  rewrite IH; [done|lia].
Qed.

(** ** The loader, row by row *)

(** A name that is not one of a list of literal names. *)
Ltac not_listed H :=
  unfold normalized_columns, post_columns, comment_columns in H;
  cbn [app] in H;
  repeat (apply elem_of_cons in H as [H|H]; [discriminate H|]);
  by apply elem_of_nil in H.

Ltac listed :=
  unfold normalized_columns, post_columns, comment_columns;
  repeat constructor.

(** A column that is not the one just assigned was there before. *)
Ltac other_column H :=
  repeat (apply elem_of_union in H as [H%elem_of_singleton|H];
          [discriminate H|]).

Section loader_facts.
Variable parse_numeric : value → option Qc.
Variable parse_datetime : list value → value → option Z.
Variable strftime : Z → string.

#[local] Abbreviation numeric_cell := (numeric_cell parse_numeric).
#[local] Abbreviation datetime_cell := (datetime_cell parse_datetime).
#[local] Abbreviation normal_score := (normal_score parse_numeric).
#[local] Abbreviation normalized_row := (normalized_row parse_numeric parse_datetime).
#[local] Abbreviation normalize := (normalize parse_numeric parse_datetime).
#[local] Abbreviation combine := (combine parse_numeric parse_datetime strftime).
#[local] Abbreviation load_data_body :=
  (load_data_body parse_numeric parse_datetime strftime).
#[local] Abbreviation load_data := (load_data parse_numeric parse_datetime strftime).
#[local] Abbreviation load_data_result :=
  (load_data_result parse_numeric parse_datetime strftime).
#[local] Abbreviation kept := (kept parse_datetime).
#[local] Abbreviation normalized_from :=
  (normalized_from parse_numeric parse_datetime).
#[local] Abbreviation post_row_of := (post_row_of parse_numeric parse_datetime).
#[local] Abbreviation comment_row_of :=
  (comment_row_of parse_numeric parse_datetime).

Lemma tag_posts_spec df :
  ∃ f : row → row,
    rows (tag_posts df) = f <$> rows df
    ∧ (∀ r c, c ≠ "type" → c ≠ "link" → c ≠ "body_preview" →
              cell c (f r) = cell c r)
    ∧ (df_empty df = false → ∀ r, cell "type" (f r) = VStr "Post")
    ∧ (∀ c, c ≠ "type" → c ≠ "link" → c ≠ "body_preview" →
            c ∈ columns (tag_posts df) ↔ c ∈ columns df)
    ∧ df_empty (tag_posts df) = df_empty df.
Proof.
  unfold tag_posts. destruct (df_empty df) eqn:Hempty; cbn [negb].
  { exists id. rewrite list_fmap_id. by repeat split. }
  eexists (λ r, <["body_preview" := _]> (<["link" := _]> (<["type" := _]> r))).
  split; [|split; [|split; [|split]]].
  - rewrite !setitem_any_rows. cbn [setitem_scalar rows].
    rewrite <-!list_fmap_compose. done.
  - intros r c ???. by rewrite !cell_insert_ne.
  - intros _ r. rewrite !cell_insert_ne by done. apply cell_insert_eq.
  - intros c ???. rewrite !setitem_any_columns. cbn [setitem_scalar columns].
    rewrite !elem_of_union, !elem_of_singleton. tauto.
  - apply df_empty_false in Hempty as [Hrows Hcols]. apply df_empty_false.
    split.
    + rewrite !setitem_any_rows. cbn [setitem_scalar rows].
      intros Hnil. by repeat apply fmap_nil_inv in Hnil.
    + rewrite setitem_any_columns. intros Hnil.
      assert ("body_preview" ∈ (∅ : gset string)) as Hin
        by (rewrite <-Hnil; apply elem_of_union_l; by apply elem_of_singleton).
      by apply elem_of_empty in Hin.
Qed.
Lemma synthesized_titles (vs : list value) :
  series_add_str "..." (str_map (str_prefix 100) vs) = comment_title <$> vs.
Proof.
  unfold series_add_str, str_map. rewrite <-list_fmap_compose.
  apply list_fmap_ext. intros _ v _. by destruct v.
Qed.

Lemma synthesize_titles_Ok_inv df titles :
  synthesize_titles df = Ok titles →
  "body" ∈ columns df ∧ titles = (λ r, comment_title (cell "body" r)) <$> rows df.
Proof.
  unfold synthesize_titles, df_get.
  destruct (decide ("body" ∈ columns df)) as [Hbody|]; [|done].
  intros (vs & ->%str_accessor_Ok_inv & [= <-])%bind_Ok_inv.
  split; [done|]. by rewrite synthesized_titles, <-list_fmap_compose.
Qed.

Lemma synthesize_titles_Ok df r b :
  "body" ∈ columns df → r ∈ rows df → cell "body" r = VStr b →
  ∃ titles, synthesize_titles df = Ok titles.
Proof.
  intros Hcol Hr Hb. unfold synthesize_titles, df_get, str_accessor.
  rewrite decide_True by done.
  assert (existsb is_str (cell "body" <$> rows df) = true) as ->.
  { apply existsb_exists. exists (VStr b). split; [|done].
    apply list_elem_of_In, list_elem_of_fmap. eauto. }
  cbn. eauto.
Qed.

Lemma tag_comments_spec df df' :
  tag_comments df = Ok df' →
  ∃ f : row → row,
    rows df' = f <$> rows df
    ∧ (∀ r c, c ≠ "type" → c ≠ "title" → c ≠ "body_preview" → c ≠ "link" →
              cell c (f r) = cell c r)
    ∧ (df_empty df = false →
       ∀ r, cell "type" (f r) = VStr "Comment"
            ∧ cell "title" (f r) = comment_title (cell "body" r))
    ∧ (∀ c, c ≠ "type" → c ≠ "title" → c ≠ "body_preview" → c ≠ "link" →
            c ∈ columns df' ↔ c ∈ columns df)
    ∧ df_empty df' = df_empty df.
Proof.
  unfold tag_comments. destruct (df_empty df) eqn:Hempty; cbn [negb].
  { intros [= <-]. exists id. rewrite list_fmap_id. by repeat split. }
  intros (titles & Htitles & Hdf')%bind_Ok_inv.
  apply synthesize_titles_Ok_inv in Htitles as [_ ->].
  injection Hdf' as <-.
  eexists (λ r, <["link" := _]> (<["body_preview" := _]>
             (<["title" := comment_title (cell "body" (<["type" := _]> r))]>
                (<["type" := _]> r)))).
  split; [|split; [|split; [|split]]].
  - rewrite !setitem_any_rows. cbn [setitem setitem_scalar rows].
    rewrite assign_cells_fmap, <-!list_fmap_compose. done.
  - intros r c ????. by rewrite !cell_insert_ne.
  - intros _ r. split.
    + rewrite !cell_insert_ne by done. apply cell_insert_eq.
    + rewrite !cell_insert_ne by done. rewrite cell_insert_eq.
      by rewrite cell_insert_ne.
  - intros c ????. rewrite !setitem_any_columns.
    cbn [setitem setitem_scalar columns].
    rewrite !elem_of_union, !elem_of_singleton. tauto.
  - apply df_empty_false in Hempty as [Hrows Hcols]. apply df_empty_false.
    split.
    + rewrite !setitem_any_rows. cbn [setitem setitem_scalar rows].
      rewrite assign_cells_fmap. intros Hnil.
      by repeat apply fmap_nil_inv in Hnil.
    + rewrite setitem_any_columns. intros Hnil.
      assert ("link" ∈ (∅ : gset string)) as Hin
        by (rewrite <-Hnil; apply elem_of_union_l; by apply elem_of_singleton).
      by apply elem_of_empty in Hin.
Qed.

Lemma assign_cells_column c c' (f : value → value) (rs : list row) :
  assign_cells c (f <$> (cell c' <$> rs)) rs
  = (λ r, <[c := f (cell c' r)]> r) <$> rs.
Proof. by rewrite <-list_fmap_compose, assign_cells_fmap. Qed.

Lemma fillna_to_numeric vs :
  fillna (VNum 0) (to_numeric parse_numeric vs) = normal_score <$> vs.
Proof.
  unfold fillna, to_numeric. rewrite <-list_fmap_compose.
  apply list_fmap_ext. intros _ v _. cbn. unfold normal_score.
  by destruct (numeric_cell v).
Qed.

Lemma lower_fillna vs :
  str_map str_lower (fillna (VStr "neutral") vs) = normal_label <$> vs.
Proof.
  unfold fillna, str_map. rewrite <-list_fmap_compose.
  apply list_fmap_ext. intros _ v _. by destruct v.
Qed.

Lemma fillna_subreddit vs :
  fillna (VStr "unknown") vs = normal_subreddit <$> vs.
Proof. unfold fillna. apply list_fmap_ext. intros _ v _. by destruct v. Qed.

Lemma normalize_Ok_inv df df' :
  normalize df = Ok df' →
  "timestamp" ∈ columns df ∧ "vader_score" ∈ columns df
  ∧ "transformer_label" ∈ columns df ∧ "subreddit" ∈ columns df
  ∧ (∀ c, c ∈ columns df' ↔ c ∈ columns df)
  ∧ rows df'
    = filter (λ r, isna (cell "timestamp" r) = false)
        (normalized_row (cell "timestamp" <$> rows df) <$> rows df).
Proof.
  unfold normalize.
  set (df1 := if decide ("timestamp" ∈ columns df) then _ else _).
  assert (∀ c, c ∈ columns df1 ↔ c ∈ columns df) as Hcols1.
  { intros c. subst df1. destruct (decide _) as [Hts|]; [|done].
    cbn [setitem columns]. rewrite elem_of_union, elem_of_singleton.
    split; [by intros [->|]|tauto]. }
  intros (vader & [Hv ->]%getitem_Ok_inv & Hrest)%bind_Ok_inv.
  apply bind_Ok_inv in Hrest as (label & [Hl ->]%getitem_Ok_inv & Hrest).
  apply bind_Ok_inv in Hrest as (label' & ->%str_accessor_Ok_inv & Hrest).
  apply bind_Ok_inv in Hrest as (sub & [Hs ->]%getitem_Ok_inv & Hrest).
  unfold dropna in Hrest.
  match type of Hrest with
  | context [decide ?P] => destruct (decide P) as [Hts|]; [|done]
  end.
  injection Hrest as <-.
  cbn [setitem columns] in Hl, Hs, Hts.
  other_column Hl. other_column Hs. other_column Hts.
  apply Hcols1 in Hv, Hl, Hs, Hts.
  split; [done|]. split; [done|]. split; [done|]. split; [done|]. split.
  - intros c. cbn [setitem columns].
    rewrite !elem_of_union, !elem_of_singleton, Hcols1.
    split; [|tauto]. intros [->|[->|[->|]]]; done.
  - cbn [rows setitem]. f_equal.
    assert (rows df1 = (λ r, <["timestamp" :=
               datetime_cell (cell "timestamp" <$> rows df) (cell "timestamp" r)]> r)
              <$> rows df) as ->.
    { subst df1. rewrite decide_True by done. cbn [setitem rows].
      unfold to_datetime. by rewrite <-list_fmap_compose, assign_cells_fmap. }
    rewrite fillna_to_numeric, assign_cells_column.
    rewrite lower_fillna, assign_cells_column.
    rewrite fillna_subreddit, assign_cells_column.
    rewrite <-!list_fmap_compose.
    apply list_fmap_ext. intros _ r _. unfold normalized_row. cbn.
    by rewrite !cell_insert_ne.
Qed.

Lemma load_data_body_log now db log :
  (load_data_body now db log).2 = log ++ ["posts"; "comments"].
Proof.
  unfold load_data_body, find. cbv beta iota zeta delta [snd].
  by rewrite <-app_assoc.
Qed.

Lemma load_data_body_result now db log :
  (load_data_body now db log).1 = load_data_result now db.
Proof.
  unfold load_data_result, load_data_body, find.
  cbv beta iota zeta delta [fst]. reflexivity.
Qed.

Lemma load_data_result_unfold now db :
  load_data_result now db
  = (df_comments ←
       tag_comments (frame_of_records (record_of <$> fetched db "comments"));
     combine now
       (tag_posts (frame_of_records (record_of <$> fetched db "posts")))
       df_comments).
Proof.
  unfold load_data_result, load_data_body, find, fetched.
  cbv beta iota zeta delta [fst]. reflexivity.
Qed.

Lemma combine_unfold now a b :
  combine now a b
  = if df_empty a && df_empty b then Ok (empty_frame, None)
    else normalize (concat a b) ≫= λ df, Ok (df, Some (strftime now)).
Proof. reflexivity. Qed.

Lemma df_empty_empty_frame : df_empty empty_frame = true.
Proof. unfold df_empty. by rewrite bool_decide_eq_true_2. Qed.

Lemma executive_summary_empty df :
  df_empty df = true → executive_summary df = Ok None.
Proof. intros Hempty. unfold executive_summary. by rewrite Hempty. Qed.

Lemma tag_posts_empty df : df_empty df = true → tag_posts df = df.
Proof. intros Hempty. unfold tag_posts. by rewrite Hempty. Qed.

Lemma tag_comments_empty df : df_empty df = true → tag_comments df = Ok df.
Proof. intros Hempty. unfold tag_comments. by rewrite Hempty. Qed.

Lemma no_documents_empty :
  df_empty (frame_of_records (record_of <$> [])) = true.
Proof. by rewrite frame_of_documents_empty, bool_decide_eq_true_2. Qed.

Lemma load_data_result_empty now db :
  fetched db "posts" = [] → fetched db "comments" = [] →
  load_data_result now db = Ok (empty_frame, None).
Proof.
  intros Hp Hc. rewrite load_data_result_unfold, Hp, Hc.
  rewrite tag_comments_empty, tag_posts_empty by apply no_documents_empty.
  cbn [mbind result_bind]. by rewrite combine_unfold, no_documents_empty.
Qed.

Lemma normalized_row_from ts (f : row → row) d :
  (∀ c, c ∈ normalized_columns → cell c (f (record_of d)) = field c d) →
  normalized_from ts d (normalized_row ts (f (record_of d))).
Proof.
  intros Hf. unfold normalized_from, normalized_row.
  rewrite !Hf by (unfold normalized_columns; set_solver).
  repeat split.
  - rewrite !cell_insert_ne by done. apply cell_insert_eq.
  - rewrite !cell_insert_ne by done. apply cell_insert_eq.
  - rewrite !cell_insert_ne by done. apply cell_insert_eq.
  - apply cell_insert_eq.
Qed.

Lemma normalized_row_other ts (r : row) c :
  c ∉ normalized_columns → cell c (normalized_row ts r) = cell c r.
Proof.
  unfold normalized_columns, normalized_row. intros Hc.
  rewrite !cell_insert_ne; [done|set_solver..].
Qed.

Lemma filter_fmap_Forall2 {A B} (f : A → B) (P : B → Prop) (K : A → Prop)
    `{∀ y, Decision (P y)} `{∀ x, Decision (K x)} (R : A → B → Prop)
    (l : list A) :
  (∀ x, x ∈ l → P (f x) ↔ K x) → (∀ x, x ∈ l → R x (f x)) →
  Forall2 R (filter K l) (filter P (f <$> l)).
Proof.
  induction l as [|x l IH]; intros HPK HR; [constructor|].
  cbn [fmap list_fmap]. rewrite !filter_cons.
  assert (x ∈ x :: l) as Hx by apply list_elem_of_here.
  assert (Forall2 R (filter K l) (filter P (f <$> l))) as IH'.
  { apply IH; intros y Hy; [apply HPK|apply HR]; by apply list_elem_of_further. }
  destruct (decide (K x)) as [HK|HK].
  - rewrite decide_True by by apply HPK. constructor; [by apply HR|done].
  - rewrite decide_False; [done|]. intros HP. by apply HK, HPK.
Qed.

Lemma column_of_documents (ds : list document) c :
  c ≠ "_id" → c ∈ columns (frame_of_records (record_of <$> ds)) →
  ∃ d, d ∈ ds ∧ is_Some (doc_fields d !! c).
Proof.
  intros Hc (d & Hd & Hdom)%frame_of_documents_columns.
  exists d. split; [done|]. apply elem_of_dom in Hdom.
  by rewrite record_of_field in Hdom.
Qed.

Lemma combined_rows_inv now (posts comments : list document) D t :
  (dfc ← tag_comments (frame_of_records (record_of <$> comments));
   combine now (tag_posts (frame_of_records (record_of <$> posts))) dfc)
  = Ok (D, Some t) →
  t = strftime now
  ∧ (∀ c, c ∈ normalized_columns →
          c ∈ columns D ∧ ∃ d, d ∈ posts ++ comments ∧ is_Some (doc_fields d !! c))
  ∧ ∃ P C, rows D = P ++ C
      ∧ Forall2 (post_row_of (field "timestamp" <$> (posts ++ comments)))
          (filter (kept (field "timestamp" <$> (posts ++ comments))) posts) P
      ∧ Forall2 (comment_row_of (field "timestamp" <$> (posts ++ comments)))
          (filter (kept (field "timestamp" <$> (posts ++ comments))) comments) C.
Proof.
  intros Hload.
  apply bind_Ok_inv in Hload as (dfc & Htag & Hcomb).
  destruct (tag_comments_spec _ _ Htag)
    as (fc & Hrows_c & Hfc & Hfc_tag & Hcols_c & Hempty_c).
  destruct (tag_posts_spec (frame_of_records (record_of <$> posts)))
    as (fp & Hrows_p & Hfp & Hfp_tag & Hcols_p & Hempty_p).
  rewrite frame_of_documents_empty in Hempty_p, Hempty_c, Hfp_tag, Hfc_tag.
  cbn [rows frame_of_records] in Hrows_p, Hrows_c.
  rewrite combine_unfold in Hcomb. destruct (_ && _); [done|].
  apply bind_Ok_inv in Hcomb as (D' & Hnorm & HD).
  injection HD as -> <-.
  apply normalize_Ok_inv in Hnorm
    as (Hc_ts & Hc_v & Hc_l & Hc_s & Hcols & Hrows).
  split; [done|]. split.
  - intros c Hc. assert (c ∈ columns (concat (tag_posts
      (frame_of_records (record_of <$> posts))) dfc)) as Hin.
    { unfold normalized_columns in Hc.
      repeat (apply elem_of_cons in Hc as [->|Hc]; [done|]).
      by apply elem_of_nil in Hc. }
    split; [by apply Hcols|].
    assert (c ≠ "type" ∧ c ≠ "title" ∧ c ≠ "body_preview" ∧ c ≠ "link"
            ∧ c ≠ "_id") as (? & ? & ? & ? & ?).
    { unfold normalized_columns in Hc.
      repeat (apply elem_of_cons in Hc as [->|Hc]; [done|]).
      by apply elem_of_nil in Hc. }
    cbn [concat columns] in Hin. apply elem_of_union in Hin as [Hin|Hin].
    + apply Hcols_p in Hin; [|done..].
      apply column_of_documents in Hin as (d & Hd & Hsome); [|done].
      exists d. split; [|done]. apply elem_of_app. by left.
    + apply Hcols_c in Hin; [|done..].
      apply column_of_documents in Hin as (d & Hd & Hsome); [|done].
      exists d. split; [|done]. apply elem_of_app. by right.
  - assert (cell "timestamp" <$> rows (concat (tag_posts
      (frame_of_records (record_of <$> posts))) dfc)
            = field "timestamp" <$> (posts ++ comments)) as Hts.
    { cbn [concat rows]. rewrite Hrows_p, Hrows_c.
      rewrite !fmap_app, <-!list_fmap_compose.
      f_equal; apply list_fmap_ext; intros _ d _; unfold compose;
        [by apply Hfp|by apply Hfc]. }
    assert (∀ d c, c ∈ normalized_columns →
              cell c (fp (record_of d)) = field c d) as Hfp_n.
    { intros d c Hc. apply Hfp; intros ->; not_listed Hc. }
    assert (∀ d c, c ∈ normalized_columns →
              cell c (fc (record_of d)) = field c d) as Hfc_n.
    { intros d c Hc. apply Hfc; intros ->; not_listed Hc. }
    rewrite Hts in Hrows. cbn [concat rows] in Hrows.
    set (ts := field "timestamp" <$> (posts ++ comments)) in *.
    rewrite Hrows_p, Hrows_c, fmap_app, filter_app in Hrows.
    rewrite <-!list_fmap_compose in Hrows.
    eexists _, _. split; [exact Hrows|]. split.
    + apply filter_fmap_Forall2.
      * intros d _. unfold compose, kept.
        by rewrite (proj1 (normalized_row_from ts fp d (Hfp_n d))).
      * intros d Hd. unfold compose. split; [|split].
        -- apply normalized_row_from, Hfp_n.
        -- rewrite normalized_row_other by (intros Hx; not_listed Hx).
           apply Hfp_tag. apply bool_decide_eq_false. intros Hnil.
           rewrite Hnil in Hd. by apply elem_of_nil in Hd.
        -- intros c Hc.
           rewrite normalized_row_other by (intros ?; apply Hc, elem_of_app; by right).
           apply Hfp; intros ->; apply Hc, elem_of_app; left; listed.
    + apply filter_fmap_Forall2.
      * intros d _. unfold compose, kept.
        by rewrite (proj1 (normalized_row_from ts fc d (Hfc_n d))).
      * intros d Hd. unfold compose.
        assert (bool_decide (comments = []) = false) as Hne.
        { apply bool_decide_eq_false. intros Hnil.
          rewrite Hnil in Hd. by apply elem_of_nil in Hd. }
        split; [|split; [|split]].
        -- apply normalized_row_from, Hfc_n.
        -- rewrite normalized_row_other by (intros Hx; not_listed Hx).
           by apply Hfc_tag.
        -- rewrite normalized_row_other by (intros Hx; not_listed Hx).
           by apply Hfc_tag.
        -- intros c Hc.
           rewrite normalized_row_other by (intros ?; apply Hc, elem_of_app; by right).
           apply Hfc; intros ->; apply Hc, elem_of_app; left; listed.
Qed.

(** What a load that returned data is made of: the rows of the kept
    posts, then the rows of the kept comments. *)
Lemma load_data_result_Ok_inv now db D t :
  load_data_result now db = Ok (D, Some t) →
  let posts := fetched db "posts" in
  let comments := fetched db "comments" in
  let ts := field "timestamp" <$> (posts ++ comments) in
  t = strftime now
  ∧ (∀ c, c ∈ normalized_columns →
          c ∈ columns D ∧ ∃ d, d ∈ posts ++ comments ∧ is_Some (doc_fields d !! c))
  ∧ ∃ P C, rows D = P ++ C
      ∧ Forall2 (post_row_of ts) (filter (kept ts) posts) P
      ∧ Forall2 (comment_row_of ts) (filter (kept ts) comments) C.
Proof.
  intros Hload. rewrite load_data_result_unfold in Hload.
  exact (combined_rows_inv now _ _ D t Hload).
Qed.

Lemma Forall2_filter_l {A B} (K : A → Prop) `{∀ x, Decision (K x)}
    (R : A → B → Prop) (l : list A) (l' : list B) :
  Forall2 R (filter K l) l' → Forall2 (λ x y, K x ∧ R x y) (filter K l) l'.
Proof.
  assert (Forall K (filter K l)) as HK.
  { apply Forall_forall. by intros x [? _]%list_elem_of_filter. }
  revert HK. generalize (filter K l) as k. intros k HK HR.
  induction HR as [|x y k k' Hxy _ IH]; [constructor|].
  apply Forall_cons in HK as [? ?]. constructor; auto.
Qed.

(** The rows of a load that returned data, with the documents they were
    loaded from. *)
Lemma load_data_result_rows now db D t :
  load_data_result now db = Ok (D, Some t) →
  let docs := fetched db "posts" ++ fetched db "comments" in
  let ts := field "timestamp" <$> docs in
  Forall2 (λ d r, kept ts d ∧ normalized_from ts d r)
    (filter (kept ts) docs) (rows D).
Proof.
  intros Hload. cbv zeta.
  apply load_data_result_Ok_inv in Hload as (_ & _ & P & C & -> & HP & HC).
  cbv zeta in HP, HC. rewrite filter_app.
  apply Forall2_app; apply Forall2_filter_l.
  - eapply Forall2_impl; [exact HP|]. by intros d r [? _].
  - eapply Forall2_impl; [exact HC|]. by intros d r [? _].
Qed.

Lemma datetime_cell_cases ts v :
  datetime_cell ts v = VNull ∨ ∃ τ, datetime_cell ts v = VTime τ.
Proof.
  unfold datetime_cell. destruct v; eauto;
    destruct (parse_datetime ts _); cbn; eauto.
Qed.

Lemma numeric_cell_cases v :
  numeric_cell v = VNull ∨ ∃ q, numeric_cell v = VNum q.
Proof.
  unfold numeric_cell. destruct v; eauto;
    destruct (parse_numeric _); cbn; eauto.
Qed.

Lemma kept_iff ts d :
  kept ts d ↔ ∃ τ, datetime_cell ts (field "timestamp" d) = VTime τ.
Proof.
  unfold kept. destruct (datetime_cell_cases ts (field "timestamp" d))
    as [->|[τ ->]]; split; try done; [by intros [? ?]|eauto].
Qed.

(** C2, amended.  When a load returns data, its rows are, in order, the
    rows of the fetched documents whose timestamp converts to a valid
    instant, and of no other document (a document whose timestamp does not
    convert is left out, not repaired); in each of them the timestamp is
    that instant; the score is the stored number, and 0 when the stored
    value is missing or does not parse; a missing label has become
    "neutral" and a label stored as text is that text in lower case; a
    missing subreddit has become "unknown" and any other is kept as it is.
    So the subreddit is never missing, and the label is never missing when
    it was stored as text or not at all.  Neither is kept from being empty:
    an empty string passes through unchanged. *)
Theorem load_normalization now db D t :
  load_data_result now db = Ok (D, Some t) →
  let docs := fetched db "posts" ++ fetched db "comments" in
  let ts := field "timestamp" <$> docs in
  (∀ d, kept ts d ↔ ∃ τ, datetime_cell ts (field "timestamp" d) = VTime τ)
  ∧ Forall2 (λ d r,
       (∃ τ, datetime_cell ts (field "timestamp" d) = VTime τ
             ∧ cell "timestamp" r = VTime τ)
       ∧ (∀ q, numeric_cell (field "vader_score" d) = VNum q →
               cell "vader_score" r = VNum q)
       ∧ (numeric_cell (field "vader_score" d) = VNull →
          cell "vader_score" r = VNum 0)
       ∧ (∃ q, cell "vader_score" r = VNum q)
       ∧ (field "transformer_label" d = VNull →
          cell "transformer_label" r = VStr "neutral")
       ∧ (∀ s, field "transformer_label" d = VStr s →
               cell "transformer_label" r = VStr (str_lower s))
       ∧ (∀ s, cell "transformer_label" r = VStr s → str_lower s = s)
       ∧ (field "transformer_label" d = VNull
          ∨ (∃ s, field "transformer_label" d = VStr s) →
          ∃ s, cell "transformer_label" r = VStr s)
       ∧ (field "subreddit" d = VNull → cell "subreddit" r = VStr "unknown")
       ∧ (field "subreddit" d ≠ VNull →
          cell "subreddit" r = field "subreddit" d)
       ∧ cell "subreddit" r ≠ VNull)
     (filter (kept ts) docs) (rows D).
Proof.
  intros Hload. cbv zeta. split; [apply kept_iff|].
  eapply Forall2_impl; [by apply (load_data_result_rows now db D t)|].
  cbv beta. intros d r (Hkept & Hts & Hv & Hl & Hs).
  apply kept_iff in Hkept as [τ Hτ].
  split; [exists τ; by rewrite Hts|].
  unfold normal_score in Hv.
  split; [intros q Hq; by rewrite Hv, Hq|].
  split; [intros Hq; by rewrite Hv, Hq|].
  split.
  { rewrite Hv. destruct (numeric_cell_cases (field "vader_score" d))
      as [->|[q ->]]; eauto. }
  split; [intros Hd; by rewrite Hl, Hd|].
  split; [intros s Hd; by rewrite Hl, Hd|].
  split.
  { intros s. rewrite Hl. destruct (field "transformer_label" d); cbn; try done.
    - by intros [= <-].
    - intros [= <-]. apply str_lower_idemp. }
  split.
  { rewrite Hl. intros [->|[s ->]]; cbn; eauto. }
  split; [intros Hd; by rewrite Hs, Hd|].
  split; [intros Hd; rewrite Hs; by destruct (field "subreddit" d)|].
  rewrite Hs. by destruct (field "subreddit" d).
Qed.

(** C9, amended.  When a load returns data, its rows are the rows of the
    kept posts, all of kind Post, followed by the rows of the kept
    comments, one per comment and in order; each comment row is of kind
    Comment, holds the body of its comment, and its title is built from
    that body.  For a body that is a text the title is the first 100
    characters of the body followed by "...", and the marker is there as
    well when the body is shorter than 100 characters (the title is then
    the whole body followed by "...").  For a body that is missing or is
    not a text the title is missing: such a comment is loaded without a
    title and without the marker. *)
Theorem comment_title_synthesis now db D t :
  load_data_result now db = Ok (D, Some t) →
  let comments := fetched db "comments" in
  let ts := field "timestamp" <$> (fetched db "posts" ++ comments) in
  ∃ P C,
    rows D = P ++ C
    ∧ Forall (λ r, cell "type" r = VStr "Post") P
    ∧ Forall2 (λ d r,
         cell "_id" r = doc_id d
         ∧ cell "type" r = VStr "Comment"
         ∧ cell "body" r = field "body" d
         ∧ (∀ b, field "body" d = VStr b →
              cell "title" r = VStr (str_prefix 100 b +:+ "...")
              ∧ (∃ rest, b = str_prefix 100 b +:+ rest)
              ∧ String.length (str_prefix 100 b) = 100 `min` String.length b
              ∧ (String.length b ≤ 100 → cell "title" r = VStr (b +:+ "...")))
         ∧ (is_str (field "body" d) = false → cell "title" r = VNull))
       (filter (kept ts) comments) C.
Proof.
  intros Hload. cbv zeta.
  apply load_data_result_Ok_inv in Hload as (_ & _ & P & C & HD & HP & HC).
  cbv zeta in HP, HC. exists P, C. split; [done|]. split.
  - apply Forall_forall. intros r Hr.
    apply list_elem_of_lookup in Hr as [i Hi].
    destruct (Forall2_lookup_r _ _ _ _ _ HP Hi) as (d & _ & _ & Htype & _).
    done.
  - eapply Forall2_impl; [exact HC|]. cbv beta.
    intros d r (_ & Htype & Htitle & Hother).
    assert (cell "body" r = field "body" d) as Hbody.
    { apply Hother. intros Hx. not_listed Hx. }
    split.
    { rewrite Hother by (intros Hx; not_listed Hx).
      unfold field, cell, record_of. by rewrite lookup_insert_eq. }
    split; [done|]. split; [done|]. split.
    + intros b Hb. rewrite Htitle, Hb. cbn [comment_title].
      destruct (str_prefix_split 100 b) as (rest & Hsplit & Hlen).
      split; [done|]. split; [eauto|]. split; [done|].
      intros Hshort. by rewrite str_prefix_short.
    + intros Hb. rewrite Htitle. by destruct (field "body" d).
Qed.

(** C3.  When both queries return no document, the load returns the empty
    frame with no load time, having issued its two queries, and it does
    not raise.  This outcome is told apart from the others by its result:
    a load returns no load time only when both queries returned no
    document, a load that raises had a document to work on, and the script
    answers the empty frame with its notice and stops without raising. *)
Theorem empty_source_load now db log :
  let posts := fetched db "posts" in
  let comments := fetched db "comments" in
  (posts = [] ∧ comments = [] →
   load_data_body now db log
   = (Ok (empty_frame, None), log ++ ["posts"; "comments"]))
  ∧ (∀ D, load_data_result now db = Ok (D, None) →
          posts = [] ∧ comments = [] ∧ D = empty_frame)
  ∧ (∀ e, load_data_result now db = Raise e → posts ≠ [] ∨ comments ≠ [])
  ∧ df_empty empty_frame = true
  ∧ executive_summary empty_frame = Ok None.
Proof.
  cbv zeta. split; [|split; [|split; [|split]]];
    [| | |apply df_empty_empty_frame
     |apply executive_summary_empty, df_empty_empty_frame].
  - intros [Hp Hc].
    rewrite (surjective_pairing (load_data_body now db log)).
    rewrite load_data_body_log, load_data_body_result.
    by rewrite load_data_result_empty.
  - intros D HD.
    destruct (decide (fetched db "posts" = [])) as [Hp|Hp];
      [destruct (decide (fetched db "comments" = [])) as [Hc|Hc]|].
    + rewrite load_data_result_empty in HD by done. by injection HD as <-.
    + exfalso. revert HD. rewrite load_data_result_unfold.
      intros (dfc & Htag & Hcomb)%bind_Ok_inv.
      destruct (tag_comments_spec _ _ Htag) as (_ & _ & _ & _ & _ & Hempty_c).
      rewrite frame_of_documents_empty, bool_decide_eq_false_2 in Hempty_c
        by done.
      rewrite combine_unfold, Hempty_c, andb_false_r in Hcomb.
      by apply bind_Ok_inv in Hcomb as (? & _ & [=]).
    + exfalso. revert HD. rewrite load_data_result_unfold.
      intros (dfc & Htag & Hcomb)%bind_Ok_inv.
      destruct (tag_posts_spec
                  (frame_of_records (record_of <$> fetched db "posts")))
        as (_ & _ & _ & _ & _ & Hempty_p).
      rewrite frame_of_documents_empty, bool_decide_eq_false_2 in Hempty_p
        by done.
      rewrite combine_unfold, Hempty_p, andb_false_l in Hcomb.
      by apply bind_Ok_inv in Hcomb as (? & _ & [=]).
  - intros e He.
    destruct (decide (fetched db "posts" = [])) as [Hp|]; [|by left].
    destruct (decide (fetched db "comments" = [])) as [Hc|]; [|by right].
    by rewrite load_data_result_empty in He.
Qed.

Lemma normalize_KeyError_vader df :
  "vader_score" ∉ columns df →
  normalize df = Raise (KeyError "vader_score").
Proof.
  intros Hv. unfold normalize. rewrite getitem_Raise; [done|].
  destruct (decide _); [|done]. cbn [setitem columns].
  intros Hin. other_column Hin. done.
Qed.

Lemma normalize_KeyError_label df :
  "vader_score" ∈ columns df → "transformer_label" ∉ columns df →
  normalize df = Raise (KeyError "transformer_label").
Proof.
  intros Hv Hl. unfold normalize.
  set (df1 := if decide ("timestamp" ∈ columns df) then _ else _).
  assert (∀ c, c ≠ "timestamp" → c ∈ columns df1 ↔ c ∈ columns df) as Hcols1.
  { intros c Hc. subst df1. destruct (decide _); [|done].
    cbn [setitem columns]. rewrite elem_of_union, elem_of_singleton. tauto. }
  rewrite getitem_Ok by by apply Hcols1. cbn [mbind result_bind].
  rewrite getitem_Raise; [done|]. cbn [setitem columns].
  intros Hin. other_column Hin. by apply Hcols1 in Hin.
Qed.

Lemma documents_column (ds : list document) d c :
  d ∈ ds → is_Some (doc_fields d !! c) →
  c ∈ columns (frame_of_records (record_of <$> ds)).
Proof.
  intros Hd Hsome. apply frame_of_documents_columns. exists d.
  split; [done|]. apply elem_of_dom. unfold record_of.
  destruct (decide (c = "_id")) as [->|];
    [by rewrite lookup_insert_eq|by rewrite lookup_insert_ne].
Qed.

Lemma tag_comments_Ok (comments : list document) :
  comments = []
  ∨ (∃ d b, d ∈ comments ∧ doc_fields d !! "body" = Some (VStr b)) →
  ∃ dfc, tag_comments (frame_of_records (record_of <$> comments)) = Ok dfc.
Proof.
  intros Hbody. unfold tag_comments. rewrite frame_of_documents_empty.
  destruct Hbody as [->|(d & b & Hd & Hb)];
    [rewrite bool_decide_eq_true_2 by done; cbn [negb]; eauto|].
  rewrite bool_decide_eq_false_2
    by (intros Hnil; rewrite Hnil in Hd; by apply elem_of_nil in Hd).
  cbn [negb].
  destruct (synthesize_titles_Ok
              (setitem_scalar "type" (VStr "Comment")
                 (frame_of_records (record_of <$> comments)))
              (<["type" := VStr "Comment"]> (record_of d)) b)
    as [titles ->]; [| | |cbn [mbind result_bind]; eauto].
  - cbn [setitem_scalar columns]. apply elem_of_union_r.
    apply (documents_column _ d); [done|by rewrite Hb].
  - cbn [setitem_scalar rows frame_of_records].
    apply list_elem_of_fmap. eexists. split; [done|].
    apply list_elem_of_fmap. eauto.
  - rewrite cell_insert_ne by done. unfold cell.
    by rewrite record_of_field, Hb.
Qed.

(** The columns the documents bring into the concatenated frame. *)
Lemma concat_column db dfc c :
  tag_comments (frame_of_records (record_of <$> fetched db "comments"))
  = Ok dfc →
  c ∈ normalized_columns →
  c ∈ columns (concat (tag_posts
        (frame_of_records (record_of <$> fetched db "posts"))) dfc)
  ↔ ∃ d, d ∈ fetched db "posts" ++ fetched db "comments"
         ∧ is_Some (doc_fields d !! c).
Proof.
  intros Htag Hc.
  destruct (tag_comments_spec _ _ Htag) as (_ & _ & _ & _ & Hcols_c & _).
  destruct (tag_posts_spec
              (frame_of_records (record_of <$> fetched db "posts")))
    as (_ & _ & _ & _ & Hcols_p & _).
  assert (c ≠ "type" ∧ c ≠ "title" ∧ c ≠ "body_preview" ∧ c ≠ "link"
          ∧ c ≠ "_id") as (? & ? & ? & ? & ?).
  { unfold normalized_columns in Hc.
    repeat (apply elem_of_cons in Hc as [->|Hc]; [done|]).
    by apply elem_of_nil in Hc. }
  cbn [concat columns]. rewrite elem_of_union, Hcols_p, Hcols_c by done.
  split.
  - intros [Hin|Hin];
      apply column_of_documents in Hin as (d & Hd & Hsome); try done;
      exists d; (split; [|done]); apply elem_of_app; eauto.
  - intros (d & [Hd|Hd]%elem_of_app & Hsome);
      [left|right]; by apply (documents_column _ d).
Qed.

Lemma no_field_not_Some (docs : list document) c :
  (∀ d, d ∈ docs → doc_fields d !! c = None) →
  ¬ ∃ d, d ∈ docs ∧ is_Some (doc_fields d !! c).
Proof. intros Hnone (d & Hd & Hsome). rewrite Hnone in Hsome by done. by destruct Hsome. Qed.

(** C10.  Take a load that has at least one document to work on and whose
    comments, if any, include one with a text body (so that the titles can
    be built).  If no document carries a [vader_score] field the load
    raises [KeyError] on that column; if some document carries a score but
    none carries a [transformer_label] field it raises [KeyError] on that
    one.  Conversely a load that returns data had each of the two fields in
    at least one document, and there the defaults repair the documents that
    lack the field: their score is 0 and their label "neutral". *)
Theorem missing_column_raises now db :
  let docs := fetched db "posts" ++ fetched db "comments" in
  let ts := field "timestamp" <$> docs in
  docs ≠ [] →
  (fetched db "comments" = []
   ∨ ∃ d b, d ∈ fetched db "comments"
            ∧ doc_fields d !! "body" = Some (VStr b)) →
  ((∀ d, d ∈ docs → doc_fields d !! "vader_score" = None) →
   load_data_result now db = Raise (KeyError "vader_score"))
  ∧ ((∃ d, d ∈ docs ∧ is_Some (doc_fields d !! "vader_score")) →
     (∀ d, d ∈ docs → doc_fields d !! "transformer_label" = None) →
     load_data_result now db = Raise (KeyError "transformer_label"))
  ∧ (∀ D t, load_data_result now db = Ok (D, Some t) →
       (∃ d, d ∈ docs ∧ is_Some (doc_fields d !! "vader_score"))
       ∧ (∃ d, d ∈ docs ∧ is_Some (doc_fields d !! "transformer_label"))
       ∧ Forall2 (λ d r,
            (doc_fields d !! "vader_score" = None →
             cell "vader_score" r = VNum 0)
            ∧ (doc_fields d !! "transformer_label" = None →
               cell "transformer_label" r = VStr "neutral"))
           (filter (kept ts) docs) (rows D)).
Proof.
  cbv zeta. intros Hdocs Hbody.
  destruct (tag_comments_Ok _ Hbody) as [dfc Htag].
  assert (load_data_result now db
          = normalize (concat (tag_posts (frame_of_records
              (record_of <$> fetched db "posts"))) dfc)
            ≫= λ df, Ok (df, Some (strftime now))) as Hload.
  { rewrite load_data_result_unfold, Htag. cbn [mbind result_bind].
    rewrite combine_unfold.
    destruct (tag_comments_spec _ _ Htag) as (_ & _ & _ & _ & _ & ->).
    destruct (tag_posts_spec
                (frame_of_records (record_of <$> fetched db "posts")))
      as (_ & _ & _ & _ & _ & ->).
    rewrite !frame_of_documents_empty.
    destruct (fetched db "posts") as [|p ps]; [|done].
    destruct (fetched db "comments") as [|c cs]; [done|done]. }
  split; [|split].
  - intros Hnone. rewrite Hload, normalize_KeyError_vader; [done|].
    rewrite concat_column by (done || listed).
    by apply no_field_not_Some.
  - intros Hsome Hnone. rewrite Hload, normalize_KeyError_label; [done| |].
    + by apply concat_column; [|listed|].
    + rewrite concat_column by (done || listed).
      by apply no_field_not_Some.
  - intros D t HD.
    pose proof (load_data_result_Ok_inv _ _ _ _ HD) as (_ & Hcols & _).
    cbv zeta in Hcols.
    split; [apply Hcols; listed|]. split; [apply Hcols; listed|].
    eapply Forall2_impl; [by apply (load_data_result_rows now db D t)|].
    cbv beta. intros d r (_ & _ & Hv & Hl & _). split.
    + intros Hnone. rewrite Hv. unfold normal_score, field, cell.
      by rewrite record_of_field, Hnone.
    + intros Hnone. rewrite Hl. unfold field, cell.
      by rewrite record_of_field, Hnone.
Qed.

(** *** The cache *)

Lemma load_data_miss now db s :
  (cache_slot s = None
   ∨ ∃ stored v, cache_slot s = Some (stored, v) ∧ (stored + 300 ≤ now)%Z) →
  load_data now db s
  = (load_data_result now db,
     mkAppState (match load_data_result now db with
                 | Ok v' => Some (now, v')
                 | Raise _ => None
                 end) (queries s ++ ["posts"; "comments"])).
Proof.
  intros Hmiss. unfold load_data.
  rewrite (surjective_pairing (load_data_body now db (queries s))).
  rewrite load_data_body_log, load_data_body_result.
  destruct Hmiss as [->|(stored & v & -> & Hexp)]; [done|].
  rewrite decide_False; [done|]. unfold ttl. lia.
Qed.

Lemma load_data_hit now db s stored v :
  cache_slot s = Some (stored, v) → (now < stored + 300)%Z →
  load_data now db s = (Ok v, s).
Proof.
  intros Hslot Hfresh. unfold load_data. rewrite Hslot.
  by rewrite decide_True by (unfold ttl; lia).
Qed.

(** C8.  Take a call of [load_data] at clock reading [t0] that finds no
    live entry in the cache and whose body returns [v].  The call runs the
    two queries, returns [v] and leaves it in the cache.  From then on a
    call before [t0 + 300] returns [v] and leaves the state, query log
    included, as it was, whatever the store holds by then; a call at
    [t0 + 300] or later runs the body again, as does a call at any time
    after the cache was cleared: each appends the posts query and the
    comments query to the log and returns what the body returns on the
    store as it is then. *)
Theorem cache_freshness s t0 db0 v :
  (cache_slot s = None
   ∨ ∃ stored v', cache_slot s = Some (stored, v') ∧ (stored + 300 ≤ t0)%Z) →
  load_data_result t0 db0 = Ok v →
  let s1 := (load_data t0 db0 s).2 in
  (load_data t0 db0 s).1 = Ok v
  ∧ queries s1 = queries s ++ ["posts"; "comments"]
  ∧ cache_slot s1 = Some (t0, v)
  ∧ (∀ now db, (now < t0 + 300)%Z → load_data now db s1 = (Ok v, s1))
  ∧ (∀ now db, (t0 + 300 ≤ now)%Z →
       (load_data now db s1).1 = load_data_result now db
       ∧ queries (load_data now db s1).2
         = queries s1 ++ ["posts"; "comments"])
  ∧ (∀ now db,
       (load_data now db (cache_data_clear s1)).1 = load_data_result now db
       ∧ queries (load_data now db (cache_data_clear s1)).2
         = queries s1 ++ ["posts"; "comments"]).
Proof.
  intros Hmiss Hbody. cbv zeta. rewrite (load_data_miss t0 db0 s Hmiss).
  rewrite Hbody. cbn [fst snd queries cache_slot].
  split; [done|]. split; [done|]. split; [done|]. split; [|split].
  - intros now db Hfresh. by apply (load_data_hit now db _ t0 v).
  - intros now db Hexp. rewrite load_data_miss; [done|].
    right. exists t0, v. by split.
  - intros now db. rewrite load_data_miss; [done|]. by left.
Qed.
End loader_facts.

(** ** The loader on the sample stores *)

#[local] Abbreviation sample_load_data :=
  (load_data sample_parse_numeric sample_parse_datetime sample_strftime).
#[local] Abbreviation sample_load_data_result :=
  (load_data_result sample_parse_numeric sample_parse_datetime sample_strftime).
#[local] Abbreviation sample_kept := (kept sample_parse_datetime).

Lemma sample_loaded_eq :
  sample_loaded = Ok (sample_dataset, Some "2026-01-01 00:00:00").
Proof. by vm_compute. Qed.

Example sample_subreddits :
  loaded_column "subreddit" sample_loaded
  = Ok [VStr "a"; VStr "a"; VStr "b"].
Proof. by vm_compute. Qed.

Example sample_labels :
  loaded_column "transformer_label" sample_loaded
  = Ok [VStr "positive"; VStr "negative"; VStr "neutral"].
Proof. by vm_compute. Qed.

Example sample_kinds :
  loaded_column "type" sample_loaded
  = Ok [VStr "Post"; VStr "Post"; VStr "Comment"].
Proof. by vm_compute. Qed.

Example sample_titles :
  loaded_column "title" sample_loaded
  = Ok [VStr "A title"; VStr "A title"; VStr "short..."].
Proof. by vm_compute. Qed.

Example long_comment_title :
  comment_title
    (VStr ("0123456789012345678901234567890123456789" +:+
           "0123456789012345678901234567890123456789" +:+
           "01234567890123456789-and the rest"))
  = VStr ("0123456789012345678901234567890123456789" +:+
          "0123456789012345678901234567890123456789" +:+
          "01234567890123456789...").
Proof. by vm_compute. Qed.

Example empty_store_load :
  load_data_body sample_parse_numeric sample_parse_datetime sample_strftime
    0 empty_store []
  = (Ok (empty_frame, None), ["posts"; "comments"]).
Proof. by vm_compute. Qed.

(** C2, as stated, fails: a post stored with an empty subreddit and an
    empty label is loaded, and its row keeps both empty. *)
Lemma load_keeps_empty_strings :
  blank_loaded = Ok (blank_dataset, Some "2026-01-01 00:00:00")
  ∧ cell "subreddit" <$> rows blank_dataset = [VStr ""]
  ∧ cell "transformer_label" <$> rows blank_dataset = [VStr ""]
  ∧ ¬ Forall (λ r, cell "subreddit" r ≠ VStr ""
                   ∧ cell "transformer_label" r ≠ VStr "")
        (rows blank_dataset).
Proof.
  split; [vm_compute; reflexivity|]. split; [vm_compute; reflexivity|].
  split; [vm_compute; reflexivity|].
  intros Hall.
  assert (Forall (λ v, v ≠ VStr "") (cell "subreddit" <$> rows blank_dataset))
    as Hsub.
  { apply Forall_fmap. eapply Forall_impl; [exact Hall|]. by intros r [? _]. }
  clear Hall.
  assert (cell "subreddit" <$> rows blank_dataset = [VStr ""]) as Heq
    by (vm_compute; reflexivity).
  rewrite Heq in Hsub. clear Heq.
  apply Forall_cons in Hsub as [Hne _]. exact (Hne eq_refl).
Qed.

Lemma load_normalization_witness :
  sample_loaded = Ok (sample_dataset, Some "2026-01-01 00:00:00")
  ∧ Forall2 (λ d r,
       (∃ q, cell "vader_score" r = VNum q)
       ∧ (∀ s, cell "transformer_label" r = VStr s → str_lower s = s)
       ∧ cell "subreddit" r ≠ VNull)
     (filter (sample_kept (field "timestamp" <$>
                (fetched sample_store "posts" ++
                 fetched sample_store "comments")))
        (fetched sample_store "posts" ++ fetched sample_store "comments"))
     (rows sample_dataset).
Proof.
  split; [by vm_compute|].
  eapply Forall2_impl.
  - apply (load_normalization sample_parse_numeric sample_parse_datetime
             sample_strftime 0 sample_store sample_dataset
             "2026-01-01 00:00:00").
    by vm_compute.
  - cbv beta. intros d r H. tauto.
Defined.

Lemma comments_loaded_eq :
  comments_loaded = Ok (comments_dataset, Some "2026-01-01 00:00:00").
Proof. vm_compute. reflexivity. Qed.

Lemma comments_store_kept :
  filter (sample_kept (field "timestamp" <$>
            (fetched comments_store "posts" ++
             fetched comments_store "comments")))
    (fetched comments_store "comments")
  = [sample_comment "c1" "a" "positive" long_body (Q2Qc 0) 400;
     sample_comment "c2" "a" "negative" "hello" (Q2Qc 0) 300;
     comment_without_body; comment_with_number].
Proof. vm_compute. reflexivity. Qed.

(** C9, as stated, fails: of four comments loaded, the one stored without
    a body and the one whose body is a number are loaded with kind Comment
    and a missing title, which is no first 100 characters of a body and
    carries no marker. *)
Lemma comment_without_text_has_no_title :
  comments_loaded = Ok (comments_dataset, Some "2026-01-01 00:00:00")
  ∧ cell "type" <$> rows comments_dataset
    = [VStr "Comment"; VStr "Comment"; VStr "Comment"; VStr "Comment"]
  ∧ cell "body" <$> rows comments_dataset
    = [VStr long_body; VStr "hello"; VNull; VNum (Q2Qc 7)]
  ∧ cell "title" <$> rows comments_dataset
    = [VStr (str_prefix 100 long_body +:+ "..."); VStr "hello...";
       VNull; VNull]
  ∧ ¬ Forall (λ r, ∃ s, cell "title" r = VStr (s +:+ "..."))
        (rows comments_dataset).
Proof.
  split; [vm_compute; reflexivity|]. split; [vm_compute; reflexivity|].
  split; [vm_compute; reflexivity|]. split; [vm_compute; reflexivity|].
  intros Hall.
  assert (Forall (λ v, ∃ s, v = VStr (s +:+ "..."))
            (cell "title" <$> rows comments_dataset)) as Htitles.
  { apply Forall_fmap. eapply Forall_impl; [exact Hall|]. by intros r H. }
  clear Hall.
  assert (cell "title" <$> rows comments_dataset
          = [VStr (str_prefix 100 long_body +:+ "..."); VStr "hello...";
             VNull; VNull]) as Heq by (vm_compute; reflexivity).
  rewrite Heq in Htitles. clear Heq.
  apply Forall_cons in Htitles as [_ Htitles].
  apply Forall_cons in Htitles as [_ Htitles].
  apply Forall_cons in Htitles as [[s Hs] _]. discriminate Hs.
Qed.

Lemma comment_title_synthesis_witness :
  comments_loaded = Ok (comments_dataset, Some "2026-01-01 00:00:00")
  ∧ ∃ P C, rows comments_dataset = P ++ C
      ∧ Forall (λ r, cell "type" r = VStr "Post") P
      ∧ Forall2 (λ title r,
           cell "type" r = VStr "Comment" ∧ cell "title" r = title)
         [VStr (str_prefix 100 long_body +:+ "..."); VStr "hello...";
          VNull; VNull] C.
Proof.
  split; [apply comments_loaded_eq|].
  destruct (comment_title_synthesis sample_parse_numeric sample_parse_datetime
              sample_strftime 0 comments_store comments_dataset
              "2026-01-01 00:00:00") as (P & C & Hrows & HP & HC).
  - apply comments_loaded_eq.
  - exists P, C. split; [done|]. split; [done|].
    cbv zeta in HC. rewrite comments_store_kept in HC.
    apply Forall2_cons_inv_l in HC as (r1 & C1 & H1 & HC & ->).
    apply Forall2_cons_inv_l in HC as (r2 & C2 & H2 & HC & ->).
    apply Forall2_cons_inv_l in HC as (r3 & C3 & H3 & HC & ->).
    apply Forall2_cons_inv_l in HC as (r4 & C4 & H4 & HC & ->).
    apply Forall2_nil_inv_l in HC as ->.
    destruct H1 as (_ & Hk1 & _ & Ht1 & _).
    destruct H2 as (_ & Hk2 & _ & Ht2 & _).
    destruct H3 as (_ & Hk3 & _ & _ & Ht3).
    destruct H4 as (_ & Hk4 & _ & _ & Ht4).
    destruct (Ht1 long_body) as [Ht1' _]; [vm_compute; reflexivity|].
    destruct (Ht2 "hello") as (_ & _ & _ & Ht2'); [vm_compute; reflexivity|].
    specialize (Ht2' ltac:(vm_compute; lia)).
    specialize (Ht3 ltac:(vm_compute; reflexivity)).
    specialize (Ht4 ltac:(vm_compute; reflexivity)).
    repeat (constructor; [by split|]). constructor.
Defined.

Lemma store_without_documents c :
  fetched (store_without c) "posts" ++ fetched (store_without c) "comments"
  = [post_without c].
Proof. reflexivity. Qed.

Lemma missing_column_raises_witness :
  sample_load_data_result 0 (store_without "vader_score")
  = Raise (KeyError "vader_score")
  ∧ sample_load_data_result 0 (store_without "transformer_label")
    = Raise (KeyError "transformer_label").
Proof.
  split.
  - apply (missing_column_raises sample_parse_numeric sample_parse_datetime
             sample_strftime 0 (store_without "vader_score")).
    + by rewrite store_without_documents.
    + left. reflexivity.
    + rewrite store_without_documents. intros d Hd.
      apply list_elem_of_singleton in Hd as ->. vm_compute. reflexivity.
  - apply (missing_column_raises sample_parse_numeric sample_parse_datetime
             sample_strftime 0 (store_without "transformer_label")).
    + by rewrite store_without_documents.
    + left. reflexivity.
    + rewrite store_without_documents.
      exists (post_without "transformer_label").
      split; [apply list_elem_of_here|]. eexists. vm_compute. reflexivity.
    + rewrite store_without_documents. intros d Hd.
      apply list_elem_of_singleton in Hd as ->. vm_compute. reflexivity.
Defined.

Lemma cache_freshness_witness :
  sample_loaded = Ok (sample_dataset, Some "2026-01-01 00:00:00")
  ∧ (sample_load_data 0 sample_store fresh_state).1
    = Ok (sample_dataset, Some "2026-01-01 00:00:00")
  ∧ queries (sample_load_data 0 sample_store fresh_state).2
    = ["posts"; "comments"]
  ∧ (∀ now db, (now < 300)%Z →
       sample_load_data now db (sample_load_data 0 sample_store fresh_state).2
       = (Ok (sample_dataset, Some "2026-01-01 00:00:00"),
          (sample_load_data 0 sample_store fresh_state).2)).
Proof.
  split; [by vm_compute|].
  destruct (cache_freshness sample_parse_numeric sample_parse_datetime
              sample_strftime fresh_state 0 sample_store
              (sample_dataset, Some "2026-01-01 00:00:00"))
    as (Hres & Hlog & _ & Hhit & _).
  - by left.
  - by vm_compute.
  - split; [done|]. split; [done|]. intros now db Hnow. apply Hhit. lia.
Defined.

(** ** Double-precision arithmetic *)

Section doubles.
#[local] Open Scope Q_scope.

Lemma pow2_pos e : 0 < pow2 e.
Proof. apply Qpower_0_lt. reflexivity. Qed.

Lemma pow2_add a b : pow2 (a + b) == pow2 a * pow2 b.
Proof. apply Qpower_plus. discriminate. Qed.

Lemma pow2_succ a : pow2 (a + 1) == 2 * pow2 a.
Proof. rewrite pow2_add. unfold pow2 at 2. simpl. ring. Qed.

Lemma pow2_inject a : (0 <= a)%Z -> pow2 a == inject_Z (2 ^ a).
Proof.
  intros Ha. unfold pow2. rewrite Zpower_Qpower by exact Ha. reflexivity.
Qed.

Lemma Qabs_pos_lt x : ~ x == 0 -> 0 < Qabs x.
Proof.
  intros Hx. pose proof (Qabs_nonneg x) as H.
  apply Qle_lteq in H as [H|H]; [exact H|].
  exfalso. apply Hx. symmetry in H.
  assert (Qabs x <= 0) as H' by (rewrite H; apply Qle_refl).
  apply Qabs_Qle_condition in H'. lra.
Qed.

(** [floor_log2 x] is the exponent of [x]. *)
Lemma floor_log2_spec x :
  0 < x -> pow2 (floor_log2 x) <= x /\ x < pow2 (floor_log2 x + 1).
Proof.
  intros Hx. destruct x as [p q]. unfold floor_log2. cbn [Qnum Qden].
  assert (0 < p)%Z as Hp by (unfold Qlt in Hx; cbn in Hx; lia).
  set (a := Z.log2 p). set (b := Z.log2 (Z.pos q)).
  destruct (Z.log2_spec p Hp) as [Hpl Hpu]. fold a in Hpl, Hpu.
  destruct (Z.log2_spec (Z.pos q) eq_refl) as [Hql Hqu]. fold b in Hql, Hqu.
  assert (0 <= a)%Z as Ha by apply Z.log2_nonneg.
  assert (0 <= b)%Z as Hb by apply Z.log2_nonneg.
  assert (inject_Z (2 ^ a) <= inject_Z p) as Hpl'
    by (rewrite <-Zle_Qle; exact Hpl).
  assert (inject_Z p < inject_Z (2 ^ (a + 1))) as Hpu'
    by (rewrite <-Zlt_Qlt; lia).
  assert (inject_Z (2 ^ b) <= inject_Z (Z.pos q)) as Hql'
    by (rewrite <-Zle_Qle; exact Hql).
  assert (inject_Z (Z.pos q) < inject_Z (2 ^ (b + 1))) as Hqu'
    by (rewrite <-Zlt_Qlt; lia).
  rewrite <-!pow2_inject in Hpl', Hpu', Hql', Hqu' by lia.
  rewrite pow2_succ in Hpu', Hqu'.
  assert (0 < inject_Z (Z.pos q)) as Hq by reflexivity.
  assert (pow2 a == pow2 (a - b) * pow2 b) as Hab.
  { rewrite <-pow2_add. replace (a - b + b)%Z with a by lia. reflexivity. }
  pose proof (pow2_pos (a - b)) as Hpos. pose proof (pow2_pos b) as Hposb.
  assert (p # q == inject_Z p / inject_Z (Z.pos q)) as Hdiv
    by apply Qmake_Qdiv.
  assert (forall t, t * inject_Z (Z.pos q) <= inject_Z p -> t <= p # q) as Hle.
  { intros t Ht. rewrite Hdiv. apply Qle_shift_div_l; assumption. }
  assert (forall t, inject_Z p < t * inject_Z (Z.pos q) -> p # q < t) as Hlt.
  { intros t Ht. rewrite Hdiv. apply Qlt_shift_div_r; assumption. }
  destruct (Qle_bool (pow2 (a - b)) (p # q)) eqn:Hcmp.
  - apply Qle_bool_iff in Hcmp. split; [exact Hcmp|].
    apply Hlt. rewrite pow2_succ. nra.
  - assert (p # q < pow2 (a - b)) as Hlow.
    { apply Qnot_le_lt. intros H. apply Qle_bool_iff in H. congruence. }
    replace (a - b - 1 + 1)%Z with (a - b)%Z by lia. split; [|exact Hlow].
    apply Hle.
    assert (pow2 (a - b) == 2 * pow2 (a - b - 1)) as Hhalf.
    { rewrite <-pow2_succ. replace (a - b - 1 + 1)%Z with (a - b)%Z by lia.
      reflexivity. }
    pose proof (pow2_pos (a - b - 1)). nra.
Qed.

(** The nearest integer is at most one half away. *)
Lemma round_half_even_error x :
  Qabs (inject_Z (round_half_even x) - x) <= 1 # 2.
Proof.
  unfold round_half_even.
  pose proof (Qfloor_le x) as Hlo. pose proof (Qlt_floor x) as Hhi.
  set (n := Qfloor x) in *.
  rewrite inject_Z_plus in Hhi. change (inject_Z 1) with 1 in Hhi.
  assert (inject_Z (n + 1) == inject_Z n + 1) as Hn1
    by (rewrite inject_Z_plus; reflexivity).
  apply Qabs_Qle_condition.
  destruct (x - inject_Z n ?= 1 # 2) eqn:Hcmp.
  - apply Qeq_alt in Hcmp. destruct (Z.even n); [|rewrite Hn1]; lra.
  - apply Qlt_alt in Hcmp. lra.
  - apply Qgt_alt in Hcmp. rewrite Hn1. lra.
Qed.

Lemma ulp53_literal : ulp53 == 1 # 9007199254740992.
Proof. reflexivity. Qed.

(** What [binary64] returns has a significand of 53 bits. *)
Lemma binary64_significand x :
  ~ x == 0 ->
  exists m e, binary64 x == inject_Z m * pow2 e
              /\ (2 ^ 52 <= Z.abs m <= 2 ^ 53)%Z.
Proof.
  intros Hx. unfold binary64.
  destruct (Qeq_bool x 0) eqn:H0; [apply Qeq_bool_iff in H0; contradiction|].
  cbv zeta. set (e := (floor_log2 (Qabs x) - 52)%Z).
  exists (round_half_even (x / pow2 e)), e. split; [apply Qred_correct|].
  destruct (floor_log2_spec _ (Qabs_pos_lt x Hx)) as [Hlow Hup].
  pose proof (pow2_pos e) as He.
  assert (pow2 (floor_log2 (Qabs x)) == pow2 e * inject_Z (2 ^ 52)) as Hl.
  { change (inject_Z (2 ^ 52)) with (pow2 52). rewrite <-pow2_add. unfold e.
    replace (floor_log2 (Qabs x) - 52 + 52)%Z with (floor_log2 (Qabs x))
      by lia.
    reflexivity. }
  assert (pow2 (floor_log2 (Qabs x) + 1) == pow2 e * inject_Z (2 ^ 53)) as Hu.
  { change (inject_Z (2 ^ 53)) with (pow2 53). rewrite <-pow2_add. unfold e.
    replace (floor_log2 (Qabs x) - 52 + 53)%Z with (floor_log2 (Qabs x) + 1)%Z
      by lia.
    reflexivity. }
  rewrite Hl in Hlow. rewrite Hu in Hup.
  set (y := x / pow2 e).
  assert (Qabs x == Qabs y * pow2 e) as Hy.
  { assert (Qabs (pow2 e) == pow2 e) as Hpe by (apply Qabs_pos; lra).
    rewrite <-Hpe, <-Qabs_Qmult. apply Qabs_wd. unfold y. field. lra. }
  rewrite Hy in Hlow, Hup.
  assert (inject_Z (2 ^ 52) <= Qabs y) as Hylo.
  { apply (Qmult_le_r _ _ (pow2 e) He). lra. }
  assert (Qabs y < inject_Z (2 ^ 53)) as Hyhi.
  { apply (Qmult_lt_r _ _ (pow2 e) He). lra. }
  pose proof (round_half_even_error y) as Herr.
  set (m := round_half_even y) in *.
  pose proof (Qabs_triangle_reverse (inject_Z m) y) as H1.
  pose proof (Qabs_triangle_reverse y (inject_Z m)) as H2.
  assert (Qabs (y - inject_Z m) == Qabs (inject_Z m - y)) as Hsym.
  { rewrite <-(Qabs_opp (y - inject_Z m)). apply Qabs_wd. ring. }
  rewrite Hsym in H2.
  change (Qabs (inject_Z m)) with (inject_Z (Z.abs m)) in H1, H2.
  assert (inject_Z (2 ^ 52) - 1 < inject_Z (Z.abs m)) as Hm1 by lra.
  assert (inject_Z (Z.abs m) < inject_Z (2 ^ 53) + 1) as Hm2 by lra.
  change 1 with (inject_Z 1) in Hm1, Hm2.
  unfold Qminus in Hm1. rewrite <-inject_Z_opp, <-inject_Z_plus in Hm1.
  rewrite <-inject_Z_plus in Hm2.
  rewrite <-Zlt_Qlt in Hm1, Hm2. lia.
Qed.

(** Rounding to the nearest double moves a number by at most 2^-53 of its
    magnitude. *)
Lemma binary64_error x : Qabs (binary64 x - x) <= ulp53 * Qabs x.
Proof.
  unfold binary64. destruct (Qeq_bool x 0) eqn:H0.
  - apply Qeq_bool_iff in H0. rewrite H0. vm_compute. discriminate.
  - assert (~ x == 0) as Hx by (intros H; apply Qeq_bool_iff in H; congruence).
    cbv zeta. rewrite Qred_correct.
    destruct (floor_log2_spec _ (Qabs_pos_lt x Hx)) as [Hlow _].
    set (e := (floor_log2 (Qabs x) - 52)%Z).
    pose proof (pow2_pos e) as He.
    pose proof (round_half_even_error (x / pow2 e)) as Herr.
    set (m := inject_Z (round_half_even (x / pow2 e))) in *.
    assert (m * pow2 e - x == (m - x / pow2 e) * pow2 e) as ->
      by (field; lra).
    rewrite Qabs_Qmult, (Qabs_pos (pow2 e)) by lra.
    assert (pow2 (floor_log2 (Qabs x)) == pow2 e * pow2 52) as Hsplit.
    { rewrite <-pow2_add. unfold e.
      replace (floor_log2 (Qabs x) - 52 + 52)%Z with (floor_log2 (Qabs x))
        by lia.
      reflexivity. }
    rewrite Hsplit in Hlow.
    assert (ulp53 == 1 # 2 ^ 53) as -> by reflexivity.
    assert (pow2 52 == inject_Z (2 ^ 52)) as H52 by reflexivity.
    rewrite H52 in Hlow.
    assert (Qabs (m - x / pow2 e) * pow2 e <= (1 # 2) * pow2 e) as H1.
    { apply Qmult_le_compat_r; lra. }
    assert ((1 # 2) * pow2 e == (1 # 2 ^ 53) * (pow2 e * inject_Z (2 ^ 52)))
      as H2.
    { change (inject_Z (2 ^ 52)) with (2 ^ 52 # 1).
      assert ((1 # 2 ^ 53) * (2 ^ 52 # 1) == 1 # 2) as H by reflexivity.
      rewrite (Qmult_comm (pow2 e)), Qmult_assoc, H. reflexivity. }
    rewrite H2 in H1. eapply Qle_trans; [exact H1|].
    apply Qmult_le_l; [reflexivity|exact Hlow].
Qed.

Lemma binary64_bounds x :
  0 <= x -> x * (1 - ulp53) <= binary64 x /\ binary64 x <= x * (1 + ulp53).
Proof.
  intros Hx. pose proof (binary64_error x) as Herr.
  rewrite (Qabs_pos x) in Herr by exact Hx.
  apply Qabs_Qle_condition in Herr. lra.
Qed.

Lemma binary64_nonneg x : 0 <= x -> 0 <= binary64 x.
Proof.
  intros Hx. destruct (binary64_bounds x Hx) as [Hlo _].
  eapply Qle_trans; [|exact Hlo].
  apply Qmult_le_0_compat; [exact Hx|]. vm_compute. discriminate.
Qed.

Lemma quotient_bounds A B a b :
  0 <= A -> 0 < B ->
  A * (1 - ulp53) <= a -> a <= A * (1 + ulp53) ->
  B * (1 - ulp53) <= b -> b <= B * (1 + ulp53) ->
  0 <= a / b
  /\ A / B * (1 - ulp53) <= a / b * (1 + ulp53)
  /\ a / b * (1 - ulp53) <= A / B * (1 + ulp53).
Proof.
  rewrite ulp53_literal. intros HA HB Hal Hau Hbl Hbu.
  assert (0 < b) as Hb by lra.
  assert (0 <= a) as Ha by nra.
  set (r := A / B). set (x := a / b).
  assert (A == r * B) as HrB by (unfold r; field; lra).
  assert (a == x * b) as Hxb by (unfold x; field; lra).
  assert (0 <= x) as Hx.
  { unfold x. apply Qle_shift_div_l; [exact Hb|]. lra. }
  assert (0 <= r) as Hr.
  { unfold r. apply Qle_shift_div_l; [exact HB|]. lra. }
  split; [exact Hx|]. split.
  - apply (Qmult_le_r _ _ B HB). nra.
  - apply (Qmult_le_r _ _ B HB). nra.
Qed.

(** A percentage is its exact value up to the four roundings behind
    it. *)
Lemma percentage_bounds c n :
  (0 < n)%nat ->
  0 <= percentage c n
  /\ share c n * (1 - ulp53) * (1 - ulp53) * (1 - ulp53)
     <= percentage c n * (1 + ulp53)
  /\ percentage c n * (1 - ulp53)
     <= share c n * (1 + ulp53) * (1 + ulp53) * (1 + ulp53).
Proof.
  intros Hn. unfold percentage, share, fmul, fdiv, float_of_nat.
  set (A := inject_Z (Z.of_nat c)). set (B := inject_Z (Z.of_nat n)).
  assert (0 <= A) as HA by (unfold A; rewrite <-(Zle_Qle 0); lia).
  assert (0 < B) as HB by (unfold B; rewrite <-(Zlt_Qlt 0); lia).
  destruct (binary64_bounds A HA) as [Hal Hau].
  destruct (binary64_bounds B (Qlt_le_weak _ _ HB)) as [Hbl Hbu].
  destruct (quotient_bounds A B _ _ HA HB Hal Hau Hbl Hbu) as (Hx & Hxl & Hxu).
  set (x := binary64 A / binary64 B) in *.
  destruct (binary64_bounds x Hx) as [HXl HXu].
  pose proof (binary64_nonneg x Hx) as HX.
  set (X := binary64 x) in *.
  assert (0 <= X * 100) as Hy by lra.
  destruct (binary64_bounds (X * 100) Hy) as [HPl HPu].
  pose proof (binary64_nonneg (X * 100) Hy) as HP.
  set (P := binary64 (X * 100)) in *.
  set (r := A / B) in *.
  rewrite ulp53_literal in *.
  split; [exact HP|]. split; nra.
Qed.

Lemma share_add a b n :
  (0 < n)%nat -> share (a + b) n == share a n + share b n.
Proof.
  intros Hn. unfold share. rewrite Nat2Z.inj_add, inject_Z_plus.
  assert (0 < inject_Z (Z.of_nat n)) by (rewrite <-(Zlt_Qlt 0); lia).
  field. lra.
Qed.

Lemma share_range k n : (0 < n)%nat -> (k <= n)%nat -> 0 <= share k n <= 100.
Proof.
  intros Hn Hk. unfold share.
  assert (0 < inject_Z (Z.of_nat n)) as HB by (rewrite <-(Zlt_Qlt 0); lia).
  assert (0 <= inject_Z (Z.of_nat k)) as HA by (rewrite <-(Zle_Qle 0); lia).
  assert (inject_Z (Z.of_nat k) <= inject_Z (Z.of_nat n)) as HAB
    by (rewrite <-Zle_Qle; lia).
  set (A := inject_Z (Z.of_nat k)) in *. set (B := inject_Z (Z.of_nat n)) in *.
  assert (0 <= A / B) by (apply Qle_shift_div_l; lra).
  assert (A / B <= 1) by (apply Qle_shift_div_r; lra).
  lra.
Qed.

Lemma share_all n : (0 < n)%nat -> share n n == 100.
Proof.
  intros Hn. unfold share.
  assert (0 < inject_Z (Z.of_nat n)) by (rewrite <-(Zlt_Qlt 0); lia).
  field. lra.
Qed.

(** Three percentages of one total add up to the exact share of their
    counts, up to the rounding of the operations: whether they are added
    exactly or, one after the other, as doubles. *)
Lemma percentages_sum a b c n :
  (0 < n)%nat -> (a + b + c <= n)%nat ->
  Qabs (percentage a n + percentage b n + percentage c n - share (a + b + c) n)
  <= rounding_epsilon
  /\ Qabs (fadd (fadd (percentage a n) (percentage b n)) (percentage c n)
           - share (a + b + c) n)
     <= rounding_epsilon.
Proof.
  intros Hn Hsum.
  destruct (percentage_bounds a n Hn) as (Ha0 & Hal & Hau).
  destruct (percentage_bounds b n Hn) as (Hb0 & Hbl & Hbu).
  destruct (percentage_bounds c n Hn) as (Hc0 & Hcl & Hcu).
  destruct (share_range (a + b + c) n Hn Hsum) as [_ Hle].
  rewrite !share_add in * by exact Hn.
  destruct (share_range a n Hn ltac:(lia)) as [Hsa _].
  destruct (share_range b n Hn ltac:(lia)) as [Hsb _].
  destruct (share_range c n Hn ltac:(lia)) as [Hsc _].
  set (p := percentage a n) in *. set (q := percentage b n) in *.
  set (r := percentage c n) in *.
  set (sa := share a n) in *. set (sb := share b n) in *.
  set (sc := share c n) in *.
  assert (0 <= p + q) as Hpq by lra.
  destruct (binary64_bounds _ Hpq) as [H1l H1u].
  pose proof (binary64_nonneg _ Hpq) as H1.
  unfold fadd. set (s1 := binary64 (p + q)) in *.
  assert (0 <= s1 + r) as Hs1r by lra.
  destruct (binary64_bounds _ Hs1r) as [H2l H2u].
  set (s := binary64 (s1 + r)) in *.
  rewrite ulp53_literal in *. unfold rounding_epsilon.
  split; apply Qabs_Qle_condition; split; lra.
Qed.

(** For counts that fit a 64-bit integer the operands and results of the
    operations behind a percentage are 0 or lie between 2^-64 and 2^64:
    the exponent range of doubles, which the model leaves out, is never
    approached. *)
Lemma percentage_within_range c n :
  (0 < c)%nat -> (c <= n)%nat -> (Z.of_nat n < 2 ^ 63)%Z ->
  let a := float_of_nat c in
  let b := float_of_nat n in
  (1 # 2 <= a /\ a <= pow2 64)
  /\ (1 # 2 <= b /\ b <= pow2 64)
  /\ (pow2 (-64) <= a / b /\ a / b <= 2)
  /\ (pow2 (-64) <= fdiv a b * 100 /\ fdiv a b * 100 <= 256)
  /\ percentage 0 n = 0.
Proof.
  intros Hc Hcn Hn. cbv zeta.
  assert (percentage 0 n = 0) as Hzero.
  { unfold percentage, fdiv, fmul, float_of_nat. cbn [Z.of_nat inject_Z].
    change (binary64 (0 # 1)) with 0.
    assert (forall x, binary64 (0 / x) = 0) as H0.
    { intros x. unfold binary64.
      assert (Qeq_bool (0 / x) 0 = true) as ->; [|reflexivity].
      apply Qeq_bool_iff. unfold Qdiv. ring. }
    rewrite H0. reflexivity. }
  unfold fdiv, float_of_nat.
  set (A := inject_Z (Z.of_nat c)). set (B := inject_Z (Z.of_nat n)).
  assert (1 <= A) as HA by (unfold A; rewrite <-(Zle_Qle 1); lia).
  assert (A <= B) as HAB by (unfold A, B; rewrite <-Zle_Qle; lia).
  assert (B <= inject_Z (2 ^ 63)) as HB
    by (unfold B; rewrite <-Zle_Qle; lia).
  destruct (binary64_bounds A ltac:(lra)) as [Hal Hau].
  destruct (binary64_bounds B ltac:(lra)) as [Hbl Hbu].
  destruct (quotient_bounds A B _ _ ltac:(lra) ltac:(lra) Hal Hau Hbl Hbu)
    as (Hx & Hxl & Hxu).
  set (a := binary64 A) in *. set (b := binary64 B) in *.
  destruct (binary64_bounds (a / b) Hx) as [HXl HXu].
  set (X := binary64 (a / b)) in *.
  assert (A / B <= 1) as Hr1 by (apply Qle_shift_div_r; lra).
  change (inject_Z (2 ^ 63)) with (9223372036854775808 # 1) in HB.
  assert (1 # 9223372036854775808 <= A / B) as Hr0.
  { apply Qle_shift_div_l; lra. }
  assert (pow2 64 == 18446744073709551616 # 1) as -> by reflexivity.
  assert (pow2 (-64) == 1 # 18446744073709551616) as -> by reflexivity.
  rewrite ulp53_literal in *.
  split; [lra|]. split; [lra|]. split; [lra|]. split; [lra|]. exact Hzero.
Qed.
End doubles.

(** The percentages of the model are those of the IEEE 754 arithmetic of
    the standard library. *)
Example percentage_is_ieee :
  (λ cn : nat * nat, percentage cn.1 cn.2)
    <$> [(1, 3); (2, 3); (1, 7); (5, 7); (0, 4); (4, 4); (17, 600);
         (2999, 3000); (1, 4999); (1234, 4999)]
  = (λ cn : nat * nat, sf_value (sf_percentage cn.1 cn.2))
      <$> [(1, 3); (2, 3); (1, 7); (5, 7); (0, 4); (4, 4); (17, 600);
           (2999, 3000); (1, 4999); (1234, 4999)].
Proof. vm_compute. reflexivity. Qed.

(** One third in percent is the double 33.33333333333333, and three of
    them, added as doubles, make 99.99999999999999, which is 2^-46 short
    of 100. *)
Example third_in_percent :
  percentage 1 3 = (2345624805922133 # 70368744177664)%Q
  ∧ fadd (fadd (percentage 1 3) (percentage 1 3)) (percentage 1 3)
    = (7036874417766399 # 70368744177664)%Q
  ∧ Qred (100 - (7036874417766399 # 70368744177664)) = (1 # 70368744177664)%Q
  ∧ Qred (100 - 3 * (2345624805922133 # 70368744177664))
    = (1 # 70368744177664)%Q.
Proof. repeat split; vm_compute; reflexivity. Qed.

(** ** The aggregator *)

(** C4, as stated, fails for the dominant label: on the empty frame a load
    of nothing returns there is no label column to read, and on a frame
    with the columns and no row the mode is empty and has no first
    entry. *)
Lemma dominant_sent_raises_on_empty :
  dominant_sent empty_frame = Raise (KeyError "transformer_label")
  ∧ dominant_sent no_rows_frame = Raise (KeyError "0").
Proof. split; by vm_compute. Qed.

(** The operations that read a column raise on the frame a load of
    nothing returns, which has no column at all. *)
Example aggregators_without_columns o n :
  active_subs empty_frame = Raise (KeyError "subreddit")
  ∧ top_subreddits o n empty_frame = Raise (KeyError "subreddit")
  ∧ sent_counts o empty_frame = Raise (KeyError "transformer_label")
  ∧ groupby_size "subreddit" "transformer_label" empty_frame
    = Raise (KeyError "subreddit").
Proof. done. Qed.

(** C4, amended.  On a frame without rows the row count is 0, the label
    distribution returns early with nothing to show, the filtered
    breakdown is skipped and the summary stops at its emptiness guard, none
    of them raising; when the frame has the column they read, the number of
    distinct subreddits is 0 and the ranking of subreddits, the label
    counts and the counts by subreddit and label are empty.  The dominant
    label is the exception: taken on a frame without rows it raises, and it
    is only ever computed behind the guard of the summary. *)
Theorem aggregators_on_empty o df :
  rows df = [] →
  total_docs df = 0
  ∧ display_sentiment_bars o df = Ok None
  ∧ grouped_sent df = Ok None
  ∧ executive_summary df = Ok None
  ∧ ("subreddit" ∈ columns df →
     active_subs df = Ok 0 ∧ ∀ n, top_subreddits o n df = Ok [])
  ∧ ("transformer_label" ∈ columns df → sent_counts o df = Ok [])
  ∧ ("subreddit" ∈ columns df → "transformer_label" ∈ columns df →
     groupby_size "subreddit" "transformer_label" df = Ok [])
  ∧ (∃ e, dominant_sent df = Raise e).
Proof.
  intros Hrows.
  assert (df_empty df = true) as Hempty.
  { unfold df_empty. by rewrite bool_decide_eq_true_2. }
  split; [unfold total_docs, df_len; by rewrite Hrows|].
  split; [unfold display_sentiment_bars; by rewrite Hempty|].
  split; [unfold grouped_sent; by rewrite Hempty|].
  split; [unfold executive_summary; by rewrite Hempty|].
  split; [|split; [|split]].
  - intros Hs. unfold active_subs, top_subreddits.
    rewrite getitem_Ok, Hrows by done. split; [done|].
    intros n. cbn [fmap list_fmap mbind result_bind].
    rewrite value_counts_nil. by destruct n.
  - intros Hl. unfold sent_counts. rewrite getitem_Ok, Hrows by done.
    cbn [fmap list_fmap mbind result_bind]. by rewrite value_counts_nil.
  - intros Hs Hl. unfold groupby_size. by rewrite !getitem_Ok, Hrows.
  - unfold dominant_sent.
    destruct (decide ("transformer_label" ∈ columns df)) as [Hl|Hl].
    + rewrite getitem_Ok, Hrows by done. by eexists.
    + rewrite getitem_Raise by done. by eexists.
Qed.

Lemma aggregators_on_empty_witness :
  total_docs no_rows_frame = 0
  ∧ display_sentiment_bars stable_argsort no_rows_frame = Ok None
  ∧ grouped_sent no_rows_frame = Ok None
  ∧ executive_summary no_rows_frame = Ok None
  ∧ ("subreddit" ∈ columns no_rows_frame →
     active_subs no_rows_frame = Ok 0
     ∧ ∀ n, top_subreddits stable_argsort n no_rows_frame = Ok [])
  ∧ ("transformer_label" ∈ columns no_rows_frame →
     sent_counts stable_argsort no_rows_frame = Ok [])
  ∧ ("subreddit" ∈ columns no_rows_frame →
     "transformer_label" ∈ columns no_rows_frame →
     groupby_size "subreddit" "transformer_label" no_rows_frame = Ok [])
  ∧ (∃ e, dominant_sent no_rows_frame = Raise e).
Proof.
  apply (aggregators_on_empty stable_argsort no_rows_frame). reflexivity.
Defined.

(** *** The label distribution *)

Lemma counts_get_value_counts o k vs :
  k ≠ VNull → counts_get k (value_counts o vs) = count_of k vs.
Proof.
  intros Hk. unfold counts_get.
  destruct (list_find _ _) as [[i [k' n]]|] eqn:Hfind.
  - apply list_find_Some in Hfind as (Hi & Hkey & _). cbn in Hkey. subst k'.
    apply list_elem_of_lookup_2 in Hi.
    by apply elem_of_value_counts in Hi as (_ & _ & ->).
  - apply list_find_None in Hfind.
    destruct (decide (k ∈ vs)) as [Hin|Hin]; [|by rewrite count_of_notin].
    assert ((k, count_of k vs) ∈ value_counts o vs) as Hentry
      by by apply elem_of_value_counts.
    eapply Forall_forall in Hfind; [|exact Hentry]. by destruct Hfind.
Qed.

(** Every label is counted once: under one of the three names, or among
    the others. *)
Lemma label_counts_total vs :
  count_of (VStr "positive") vs + count_of (VStr "neutral") vs
  + count_of (VStr "negative") vs
  + length (filter (λ v, v ∉ canonical_labels) vs) = length vs.
Proof.
  unfold count_of. induction vs as [|v vs IH]; [done|].
  rewrite !filter_cons. cbn [length]. rewrite <-IH. clear IH.
  destruct (decide (v ∈ canonical_labels)) as [Hv|Hv].
  - rewrite (decide_False (P := v ∉ canonical_labels)) by tauto.
    unfold canonical_labels in Hv.
    apply elem_of_cons in Hv as [->|Hv];
      [|apply elem_of_cons in Hv as [->|Hv];
        [|apply list_elem_of_singleton in Hv as ->]];
      repeat first [rewrite decide_True by reflexivity
                   |rewrite decide_False by discriminate];
      cbn [length]; lia.
  - rewrite (decide_True (P := v ∉ canonical_labels)) by done.
    assert (v ≠ VStr "positive" ∧ v ≠ VStr "neutral" ∧ v ≠ VStr "negative")
      as (H1 & H2 & H3).
    { unfold canonical_labels in Hv. rewrite !not_elem_of_cons in Hv. tauto. }
    rewrite !decide_False by done. cbn [length]. lia.
Qed.

Lemma no_other_labels vs :
  Forall (λ v, v ∈ canonical_labels) vs →
  filter (λ v, v ∉ canonical_labels) vs = [].
Proof.
  induction 1 as [|v l Hv _ IH]; [done|].
  rewrite filter_cons, decide_False; [done|]. tauto.
Qed.

Lemma display_sentiment_bars_Ok o df :
  df_empty df = false →
  "transformer_label" ∈ columns df →
  let labels := cell "transformer_label" <$> rows df in
  display_sentiment_bars o df
  = Ok (Some (percentage (count_of (VStr "positive") labels) (df_len df),
              percentage (count_of (VStr "neutral") labels) (df_len df),
              percentage (count_of (VStr "negative") labels) (df_len df))).
Proof.
  intros Hne Hcol. cbv zeta. unfold display_sentiment_bars.
  rewrite Hne, getitem_Ok by done.
  cbn [mbind result_bind]. by rewrite !counts_get_value_counts.
Qed.

(** C5, as stated, fails: the post stored with an empty label is loaded,
    the Dataset it makes is not empty, and the three percentages of that
    Dataset are 0, 0 and 0, which is 100 away from 100.  Only the rows
    labelled positive, neutral or negative enter a percentage, and the
    loader admits any label. *)
Lemma label_percentages_of_blank_labels :
  blank_loaded = Ok (blank_dataset, Some "2026-01-01 00:00:00")
  ∧ df_empty blank_dataset = false
  ∧ cell "transformer_label" <$> rows blank_dataset = [VStr ""]
  ∧ (∀ o, display_sentiment_bars o blank_dataset
          = Ok (Some (0%Q, 0%Q, 0%Q)))
  ∧ ¬ (Qabs (0 + 0 + 0 - 100) <= rounding_epsilon)%Q.
Proof.
  split; [vm_compute; reflexivity|]. split; [vm_compute; reflexivity|].
  split; [vm_compute; reflexivity|]. split.
  - intros o. rewrite display_sentiment_bars_Ok.
    + vm_compute. reflexivity.
    + vm_compute. reflexivity.
    + apply (bool_decide_unpack _). vm_compute. exact I.
  - vm_compute. intros H. apply H. reflexivity.
Qed.

(** C5, amended.  On a non-empty frame with a label column, whatever the
    order of the count table, the three percentages shown are those of the
    counts of positive, neutral and negative among the rows, each computed
    in doubles as the count divided by the number of rows, times 100.
    Added up, exactly or as doubles, they are within 10^-13 of the exact
    share of the rows that carry one of the three labels.  When every row
    carries one of the three, that share is 100: the percentages add up to
    100 within 10^-13. *)
Theorem label_distribution_sums o df :
  df_empty df = false →
  "transformer_label" ∈ columns df →
  let labels := cell "transformer_label" <$> rows df in
  let pos := count_of (VStr "positive") labels in
  let neu := count_of (VStr "neutral") labels in
  let neg := count_of (VStr "negative") labels in
  let other := length (filter (λ v, v ∉ canonical_labels) labels) in
  let total := df_len df in
  let pos_pct := percentage pos total in
  let neu_pct := percentage neu total in
  let neg_pct := percentage neg total in
  0 < total
  ∧ pos + neu + neg + other = total
  ∧ display_sentiment_bars o df = Ok (Some (pos_pct, neu_pct, neg_pct))
  ∧ (Qabs (pos_pct + neu_pct + neg_pct - share (pos + neu + neg) total)
     <= rounding_epsilon)%Q
  ∧ (Qabs (fadd (fadd pos_pct neu_pct) neg_pct - share (pos + neu + neg) total)
     <= rounding_epsilon)%Q
  ∧ (Forall (λ r, cell "transformer_label" r ∈ canonical_labels) (rows df) →
     other = 0
     ∧ (Qabs (pos_pct + neu_pct + neg_pct - 100) <= rounding_epsilon)%Q
     ∧ (Qabs (fadd (fadd pos_pct neu_pct) neg_pct - 100)
        <= rounding_epsilon)%Q).
Proof.
  intros Hne Hcol. cbv zeta.
  set (labels := cell "transformer_label" <$> rows df).
  pose proof (label_counts_total labels) as Htotal.
  assert (length labels = df_len df) as Hlen
    by (unfold labels, df_len; by rewrite length_fmap).
  rewrite Hlen in Htotal.
  assert (0 < df_len df) as Hpos.
  { apply df_empty_false in Hne as [Hrows _]. unfold df_len.
    destruct (rows df); [done|cbn; lia]. }
  set (pos := count_of (VStr "positive") labels) in *.
  set (neu := count_of (VStr "neutral") labels) in *.
  set (neg := count_of (VStr "negative") labels) in *.
  destruct (percentages_sum pos neu neg (df_len df)) as [Hexact Hfloat];
    [lia|lia|].
  split; [done|]. split; [done|].
  split; [by apply display_sentiment_bars_Ok|].
  split; [done|]. split; [done|].
  intros Hlabels.
  assert (length (filter (λ v, v ∉ canonical_labels) labels) = 0) as Hother.
  { rewrite no_other_labels; [done|]. by apply Forall_fmap. }
  split; [done|].
  rewrite Hother, Nat.add_0_r in Htotal. rewrite Htotal in Hexact, Hfloat.
  rewrite share_all in Hexact, Hfloat by lia. done.
Qed.

Lemma label_distribution_sums_witness :
  let third := (2345624805922133 # 70368744177664)%Q in
  display_sentiment_bars stable_argsort sample_frame
  = Ok (Some (third, third, third))
  ∧ (Qabs (third + third + third - 100) <= rounding_epsilon)%Q
  ∧ (Qabs (fadd (fadd third third) third - 100) <= rounding_epsilon)%Q.
Proof.
  cbv zeta.
  assert (percentage 1 3 = (2345624805922133 # 70368744177664)%Q) as <-
    by (vm_compute; reflexivity).
  destruct (label_distribution_sums stable_argsort sample_frame)
    as (_ & _ & Hbars & _ & _ & Hall).
  - vm_compute. reflexivity.
  - apply (bool_decide_unpack _). vm_compute. exact I.
  - destruct Hall as (_ & Hexact & Hfloat).
    + apply (bool_decide_unpack _). vm_compute. exact I.
    + split; [exact Hbars|]. split; [exact Hexact|exact Hfloat].
Defined.

Example sample_summary :
  total_docs sample_frame = 3
  ∧ active_subs sample_frame = Ok 2
  ∧ sub_counts stable_argsort sample_frame = Ok [(VStr "a", 2); (VStr "b", 1)]
  ∧ sub_counts reversing_argsort sample_frame
    = Ok [(VStr "a", 2); (VStr "b", 1)].
Proof. repeat split; by vm_compute. Qed.
(** ** More on the filters *)

Lemma elem_of_sentiments_to_show v p n g :
  v ∈ sentiments_to_show p n g
  ↔ (v = VStr "positive" ∧ p = true) ∨ (v = VStr "neutral" ∧ n = true)
    ∨ (v = VStr "negative" ∧ g = true).
Proof.
  unfold sentiments_to_show.
  destruct p, n, g; cbn [app];
    rewrite ?elem_of_cons, ?elem_of_nil; intuition (try discriminate).
Qed.

(** X1.  With the three sentiment checkboxes, a row is shown exactly when its
    subreddit and its kind are selected and the checkbox of its label is
    ticked; a row whose label is none of the three is never shown, and
    with the three boxes unticked nothing is. *)
Theorem checkbox_selection df subs kinds chk_pos chk_neu chk_neg :
  "subreddit" ∈ columns df → "type" ∈ columns df →
  "transformer_label" ∈ columns df →
  ∃ out,
    apply_filters subs kinds (sentiments_to_show chk_pos chk_neu chk_neg) df
    = Ok out
    ∧ (∀ r, r ∈ rows out ↔
         r ∈ rows df ∧ cell "subreddit" r ∈ subs ∧ cell "type" r ∈ kinds
         ∧ ((cell "transformer_label" r = VStr "positive" ∧ chk_pos = true)
            ∨ (cell "transformer_label" r = VStr "neutral" ∧ chk_neu = true)
            ∨ (cell "transformer_label" r = VStr "negative"
               ∧ chk_neg = true)))
    ∧ (∀ r, r ∈ rows out → cell "transformer_label" r ∈ canonical_labels)
    ∧ (chk_pos = false → chk_neu = false → chk_neg = false → rows out = []).
Proof.
  intros Hs Hk Hl. eexists. split; [by apply apply_filters_ok|].
  cbn [rows]. split; [|split].
  - intros r. rewrite list_elem_of_filter. unfold retained.
    rewrite elem_of_sentiments_to_show. tauto.
  - intros r [(_ & _ & Hin) _]%list_elem_of_filter.
    apply elem_of_sentiments_to_show in Hin. unfold canonical_labels.
    rewrite !elem_of_cons. tauto.
  - intros -> -> ->. apply filter_none.
    intros r (_ & _ & Hin). by apply elem_of_nil in Hin.
Qed.

Lemma checkbox_selection_witness :
  ∃ out,
    apply_filters [VStr "a"] [VStr "Post"] (sentiments_to_show true false false)
      sample_frame = Ok out
    ∧ (∀ r, r ∈ rows out → cell "transformer_label" r ∈ canonical_labels).
Proof.
  destruct (checkbox_selection sample_frame [VStr "a"] [VStr "Post"]
              true false false) as (out & Hout & _ & Hlabels & _).
  - apply (bool_decide_unpack _). vm_compute. exact I.
  - apply (bool_decide_unpack _). vm_compute. exact I.
  - apply (bool_decide_unpack _). vm_compute. exact I.
  - exists out. by split.
Defined.

Lemma retained_both s1 k1 l1 s2 k2 l2 r :
  retained (filter (λ v, v ∈ s2) s1) (filter (λ v, v ∈ k2) k1)
    (filter (λ v, v ∈ l2) l1) r
  ↔ retained s2 k2 l2 r ∧ retained s1 k1 l1 r.
Proof. unfold retained. rewrite !list_elem_of_filter. tauto. Qed.

(** X2.  Filtering a filtered frame keeps the rows that pass both filters: it
    is the same as filtering once with the values that are in both
    selections, in either order; filtering again with the same selections
    changes nothing; and a filter never returns more rows than it was
    given. *)
Theorem filter_composition df s1 k1 l1 s2 k2 l2 :
  "subreddit" ∈ columns df → "type" ∈ columns df →
  "transformer_label" ∈ columns df →
  ∃ out1 out12,
    apply_filters s1 k1 l1 df = Ok out1
    ∧ apply_filters s2 k2 l2 out1 = Ok out12
    ∧ apply_filters (filter (λ v, v ∈ s2) s1) (filter (λ v, v ∈ k2) k1)
        (filter (λ v, v ∈ l2) l1) df = Ok out12
    ∧ (∃ out2, apply_filters s2 k2 l2 df = Ok out2
               ∧ apply_filters s1 k1 l1 out2 = Ok out12)
    ∧ apply_filters s1 k1 l1 out1 = Ok out1
    ∧ df_len out12 ≤ df_len out1 ≤ df_len df.
Proof.
  intros Hs Hk Hl. eexists _, _.
  split; [by apply apply_filters_ok|].
  split; [by apply apply_filters_ok|]. cbn [columns rows].
  split; [|split; [|split]].
  - rewrite apply_filters_ok by done. do 2 f_equal.
    rewrite list_filter_filter. apply list_filter_iff. intros r.
    apply retained_both.
  - eexists. split; [by apply apply_filters_ok|].
    rewrite apply_filters_ok by done. cbn [columns rows]. do 2 f_equal.
    rewrite !list_filter_filter. apply list_filter_iff. intros r. tauto.
  - rewrite apply_filters_ok by done. cbn [columns rows]. do 2 f_equal.
    rewrite list_filter_filter. apply list_filter_iff. intros r. tauto.
  - unfold df_len. cbn [rows]. split; apply length_filter.
Qed.

Lemma filter_composition_witness :
  ∃ out1 out12,
    apply_filters [VStr "a"; VStr "b"] [VStr "Post"] canonical_labels
      sample_frame = Ok out1
    ∧ apply_filters [VStr "a"] [VStr "Post"; VStr "Comment"]
        canonical_labels out1 = Ok out12
    ∧ df_len out12 ≤ df_len out1 ≤ df_len sample_frame.
Proof.
  destruct (filter_composition sample_frame
              [VStr "a"; VStr "b"] [VStr "Post"] canonical_labels
              [VStr "a"] [VStr "Post"; VStr "Comment"] canonical_labels)
    as (out1 & out12 & H1 & H12 & _ & _ & _ & Hlen).
  - apply (bool_decide_unpack _). vm_compute. exact I.
  - apply (bool_decide_unpack _). vm_compute. exact I.
  - apply (bool_decide_unpack _). vm_compute. exact I.
  - exists out1, out12. split; [exact H1|]. split; [exact H12|exact Hlen].
Defined.

(** ** More on the counts *)

Section tally_facts.
Context {A : Type} `{EqDecision A}.
Implicit Types (l u : list A) (x y : A).

Lemma sum_list_with_pointwise (f g : A → nat) u :
  (∀ x, f x = g x) → sum_list_with f u = sum_list_with g u.
Proof.
  intros Hfg. induction u as [|x u IH]; [done|].
  cbn [sum_list_with]. by rewrite Hfg, IH.
Qed.

Lemma sum_list_with_add (f g : A → nat) u :
  sum_list_with (λ x, f x + g x) u = sum_list_with f u + sum_list_with g u.
Proof. induction u as [|x u IH]; [done|]. cbn. rewrite IH. lia. Qed.

Lemma sum_list_with_indicator y u :
  NoDup u → y ∈ u →
  sum_list_with (λ x, if decide (y = x) then 1 else 0) u = 1.
Proof.
  induction 1 as [|x u Hx Hu IH]; intros Hy; [by apply elem_of_nil in Hy|].
  cbn. destruct (decide (y = x)) as [->|Hne].
  - assert (sum_list_with (λ x0, if decide (x = x0) then 1 else 0) u = 0)
      as ->; [|done].
    clear IH Hy Hu. induction u as [|z u IH]; [done|].
    apply not_elem_of_cons in Hx as [Hne Hx]. cbn.
    rewrite decide_False by done. by rewrite IH.
  - apply elem_of_cons in Hy as [?|Hy]; [done|]. by rewrite IH.
Qed.

Lemma count_of_cons y l x :
  count_of x (y :: l) = (if decide (y = x) then 1 else 0) + count_of x l.
Proof. unfold count_of. rewrite filter_cons. by destruct (decide (y = x)). Qed.

Lemma sum_counts u l :
  NoDup u → (∀ x, x ∈ l → x ∈ u) →
  sum_list_with (λ x, count_of x l) u = length l.
Proof.
  intros Hu. induction l as [|y l IH]; intros Hin.
  - clear. induction u as [|x u IH]; [done|].
    cbn [sum_list_with]. rewrite IH. reflexivity.
  - rewrite (sum_list_with_pointwise _
               (λ x, (if decide (y = x) then 1 else 0) + count_of x l));
      [|intros x; apply count_of_cons].
    rewrite sum_list_with_add, sum_list_with_indicator, IH; [done| | |].
    + intros x Hx. apply Hin. by right.
    + done.
    + apply Hin. by left.
Qed.

(** Every value is counted once: the counts of a tally add up to the
    length of the list. *)
Lemma tally_total l : sum_list (snd <$> tally l) = length l.
Proof.
  unfold tally. rewrite <-list_fmap_compose.
  rewrite <-(sum_counts (unique l) l);
    [|apply NoDup_unique|intros x; by rewrite elem_of_unique].
  generalize (unique l) as u. intros u.
  induction u as [|x u IH]; [done|].
  cbn [fmap list_fmap sum_list_with compose snd id]. by rewrite <-IH.
Qed.
End tally_facts.

Lemma value_counts_total o vs :
  sum_list (snd <$> value_counts o vs) = length (dropna_values vs).
Proof. by rewrite value_counts_perm, tally_total. Qed.

Lemma dropna_values_length c (rs : list row) :
  length (dropna_values (cell c <$> rs))
  = length (filter (λ r, cell c r ≠ VNull) rs).
Proof.
  unfold dropna_values. induction rs as [|r rs IH]; [done|].
  cbn [fmap list_fmap]. rewrite !filter_cons.
  destruct (cell c r) eqn:Hc; cbn [isna];
    repeat first [rewrite decide_True by done
                 |rewrite decide_False by (by intros ?)];
    cbn [length]; by rewrite <-?IH.
Qed.

(** X3.  Whatever the order of the table, the label counts behind the pie chart
    count every row that has a label exactly once: they add up to the
    number of rows whose label is not missing, which is the number of rows
    when no label is missing; no label is listed twice, and each is listed
    with its number of rows. *)
Theorem sent_counts_total o df :
  "transformer_label" ∈ columns df →
  ∃ t,
    sent_counts o df = Ok t
    ∧ sum_list (snd <$> t)
      = length (filter (λ r, cell "transformer_label" r ≠ VNull) (rows df))
    ∧ sum_list (snd <$> t) ≤ df_len df
    ∧ (Forall (λ r, cell "transformer_label" r ≠ VNull) (rows df) →
       sum_list (snd <$> t) = df_len df)
    ∧ NoDup t.*1
    ∧ (∀ l n, (l, n) ∈ t ↔
         l ≠ VNull ∧ 0 < n
         ∧ n = length (filter (λ r, cell "transformer_label" r = l) (rows df))).
Proof.
  intros Hcol. unfold sent_counts. rewrite getitem_Ok by done.
  cbn [mbind result_bind]. eexists. split; [done|].
  rewrite value_counts_total, dropna_values_length.
  split; [done|]. split; [apply length_filter|]. split.
  { intros Hall. by rewrite filter_Forall_id. }
  split; [apply value_counts_keys_NoDup|].
  intros l n. rewrite elem_of_value_counts.
  assert (count_of l (cell "transformer_label" <$> rows df)
          = length (filter (λ r, cell "transformer_label" r = l) (rows df)))
    as Hcount.
  { unfold count_of. induction (rows df) as [|r rs IH]; [done|].
    cbn [fmap list_fmap]. rewrite !filter_cons.
    destruct (decide (cell "transformer_label" r = l)); cbn [length];
      by rewrite IH. }
  rewrite <-Hcount. split.
  - intros (Hin & Hl & ->). split; [done|]. split; [|done].
    by apply count_of_pos.
  - intros (Hl & Hpos & ->). split; [|done].
    destruct (decide (l ∈ cell "transformer_label" <$> rows df)); [done|].
    rewrite count_of_notin in Hpos by done. lia.
Qed.

Lemma sent_counts_total_witness :
  ∃ t, sent_counts reversing_argsort sample_frame = Ok t
       ∧ sum_list (snd <$> t) = df_len sample_frame.
Proof.
  destruct (sent_counts_total reversing_argsort sample_frame)
    as (t & Ht & _ & _ & Hall & _).
  - apply (bool_decide_unpack _). vm_compute. exact I.
  - exists t. split; [exact Ht|]. apply Hall.
    apply (bool_decide_unpack _). vm_compute. exact I.
Defined.

(** ** The options of the subreddit filter and the dominant label *)

Lemma value_leb_total a b : value_leb a b = false → value_leb b a = true.
Proof.
  destruct a as [|s|p|t], b as [|s'|p'|t']; cbn; try done.
  - intros Hs. by destruct (String.leb_total s s') as [Ht|Ht];
      [rewrite Ht in Hs|].
  - intros Hp%bool_decide_eq_false. apply bool_decide_eq_true.
    by apply Qclt_le_weak, Qcnot_le_lt.
  - intros Ht%Z.leb_gt. apply Z.leb_le. lia.
Qed.

(** X4.  On a frame whose subreddits are all texts, the options offered by the
    subreddit filter, which are also the monitored subreddits listed under
    the charts, are the subreddits that occur in the frame, each once, in
    ascending order, and their number is the figure shown as active
    subreddits. *)
Theorem all_options_sorted_distinct df :
  "subreddit" ∈ columns df →
  Forall (λ r, ∃ s, cell "subreddit" r = VStr s) (rows df) →
  ∃ opts,
    all_options df = Ok (VStr <$> opts)
    ∧ (∀ s, s ∈ opts ↔ ∃ r, r ∈ rows df ∧ cell "subreddit" r = VStr s)
    ∧ NoDup opts
    ∧ Sorted (λ a b, String.leb a b = true) opts
    ∧ active_subs df = Ok (length opts).
Proof.
  intros Hcol Htext. unfold all_options, active_subs.
  rewrite getitem_Ok by done. cbn [mbind result_bind].
  set (col := cell "subreddit" <$> rows df).
  assert (Forall (λ v, ∃ s, v = VStr s)
            (stable_sort value_leb (unique col))) as Hall.
  { apply Forall_forall. intros v Hv.
    apply elem_of_stable_sort, elem_of_unique, list_elem_of_fmap in Hv
      as (r & -> & Hr).
    eapply Forall_forall in Htext; [|exact Hr]. done. }
  assert (∃ opts, stable_sort value_leb (unique col) = VStr <$> opts)
    as [opts Hopts].
  { clear -Hall. induction Hall as [|v l [s ->] _ [opts ->]].
    - by exists [].
    - by exists (s :: opts). }
  exists opts. rewrite Hopts. split; [done|].
  assert (∀ s, s ∈ opts ↔ VStr s ∈ stable_sort value_leb (unique col))
    as Hmem.
  { intros s. rewrite Hopts, list_elem_of_fmap. split.
    - intros Hs. by exists s.
    - by intros (s' & [= <-] & Hs'). }
  split; [|split; [|split]].
  - intros s. rewrite Hmem, elem_of_stable_sort, elem_of_unique.
    unfold col. rewrite list_elem_of_fmap.
    split; intros (r & ? & ?); exists r; by split.
  - apply (NoDup_fmap_1 VStr). rewrite <-Hopts, stable_sort_perm.
    apply NoDup_unique.
  - pose proof (stable_sort_Sorted value_leb value_leb_total (unique col))
      as Hsorted.
    rewrite Hopts in Hsorted. clear -Hsorted.
    induction opts as [|a opts IH]; [constructor|].
    cbn in Hsorted. apply Sorted_inv in Hsorted as [Hs Hhd].
    constructor; [by apply IH|].
    destruct opts as [|b opts]; constructor.
    cbn in Hhd. by apply HdRel_inv in Hhd.
  - rewrite <-(length_fmap VStr opts), <-Hopts, stable_sort_length.
    unfold nunique, dropna_values. rewrite filter_Forall_id; [done|].
    apply Forall_fmap. eapply Forall_impl; [exact Htext|].
    intros r [s Hs]. unfold compose. by rewrite Hs.
Qed.

Lemma all_options_sorted_distinct_witness :
  all_options sample_frame = Ok (VStr <$> ["a"; "b"])
  ∧ active_subs sample_frame = Ok 2.
Proof.
  destruct (all_options_sorted_distinct sample_frame)
    as (opts & Hopts & _ & _ & _ & Hactive).
  - apply (bool_decide_unpack _). vm_compute. exact I.
  - apply Forall_forall. intros r Hr.
    unfold sample_frame in Hr. cbn [rows] in Hr.
    apply elem_of_cons in Hr as [->|Hr];
      [|apply elem_of_cons in Hr as [->|Hr];
        [|apply list_elem_of_singleton in Hr as ->]];
      eexists; vm_compute; reflexivity.
  - split; [vm_compute; reflexivity|]. vm_compute. reflexivity.
Defined.

Lemma mode_head vs :
  dropna_values vs ≠ [] →
  ∃ m, series_first (mode vs) = Ok m
       ∧ m ∈ vs ∧ m ≠ VNull
       ∧ ∀ v, v ≠ VNull → count_of v vs ≤ count_of m vs.
Proof.
  intros Hne. unfold mode.
  set (t := tally (dropna_values vs)).
  set (top := max_list (snd <$> t)).
  assert (t ≠ []) as Ht.
  { subst t. unfold tally. intros Hnil%fmap_nil_inv.
    by apply unique_nil_inv in Hnil. }
  assert (top ∈ snd <$> t) as Htop.
  { apply max_list_elem_of. by intros Hnil%fmap_nil_inv. }
  apply list_elem_of_fmap in Htop as ([k n] & Hn & Hkn). cbn in Hn. subst n.
  assert (k ∈ fst <$> filter (λ kc, kc.2 = top) t) as Hk.
  { apply list_elem_of_fmap. exists (k, top). split; [done|].
    by apply list_elem_of_filter. }
  rewrite <-(elem_of_stable_sort value_leb) in Hk.
  destruct (stable_sort value_leb (fst <$> filter (λ kc, kc.2 = top) t))
    as [|m ms] eqn:Hsorted; [by apply elem_of_nil in Hk|].
  exists m. split; [done|].
  assert (m ∈ fst <$> filter (λ kc, kc.2 = top) t) as Hm.
  { rewrite <-(elem_of_stable_sort value_leb), Hsorted. by left. }
  apply list_elem_of_fmap in Hm as ([m' c] & -> & [Hc Hmc]%list_elem_of_filter).
  cbn in Hc. subst c. cbn [fst].
  assert ((m', top) ∈ value_counts stable_argsort vs) as Hvc
    by (by rewrite value_counts_perm).
  apply elem_of_value_counts in Hvc as (Hin & Hnn & Hcount).
  split; [done|]. split; [done|].
  intros v Hv. rewrite <-Hcount.
  destruct (decide (v ∈ vs)) as [Hvin|Hvin];
    [|rewrite count_of_notin by done; lia].
  apply max_list_elem_of_le, list_elem_of_fmap.
  exists (v, count_of v vs). split; [done|].
  subst t. rewrite <-(value_counts_perm stable_argsort).
  by apply elem_of_value_counts.
Qed.

(** X5.  On a frame whose labels are texts or missing, with at least one text
    among them, the dominant sentiment does not raise, and it is the
    title-cased form of a most frequent label: no label has more rows than
    the one it names. *)
Theorem dominant_sent_is_most_frequent df :
  "transformer_label" ∈ columns df →
  Forall (λ r, cell "transformer_label" r = VNull
               ∨ ∃ s, cell "transformer_label" r = VStr s) (rows df) →
  (∃ r s, r ∈ rows df ∧ cell "transformer_label" r = VStr s) →
  let labels := cell "transformer_label" <$> rows df in
  ∃ m,
    dominant_sent df = Ok (VStr (str_title m))
    ∧ VStr m ∈ labels
    ∧ ∀ l, l ≠ VNull → count_of l labels ≤ count_of (VStr m) labels.
Proof.
  intros Hcol Htext (r & s & Hr & Hs). cbv zeta.
  destruct (mode_head (cell "transformer_label" <$> rows df))
    as (m & Hfirst & Hin & Hnn & Hmax).
  { intros Hnil.
    assert (VStr s ∈ dropna_values (cell "transformer_label" <$> rows df))
      as Hin; [|rewrite Hnil in Hin; by apply elem_of_nil in Hin].
    apply list_elem_of_filter. split; [done|].
    apply list_elem_of_fmap. by exists r. }
  assert (∃ s', m = VStr s') as [s' ->].
  { apply list_elem_of_fmap in Hin as (r' & -> & Hr').
    eapply Forall_forall in Htext; [|exact Hr'].
    destruct Htext as [Hnull|?]; [by rewrite Hnull in Hnn|done]. }
  exists s'. split; [|by split].
  unfold dominant_sent. rewrite getitem_Ok by done.
  cbn [mbind result_bind]. by rewrite Hfirst.
Qed.

Lemma dominant_sent_is_most_frequent_witness :
  ∃ m, dominant_sent tied_frame = Ok (VStr (str_title m))
       ∧ VStr m ∈ cell "transformer_label" <$> rows tied_frame.
Proof.
  destruct (dominant_sent_is_most_frequent tied_frame)
    as (m & Hm & Hin & _).
  - apply (bool_decide_unpack _). vm_compute. exact I.
  - apply Forall_forall. intros r Hr. right.
    unfold tied_frame in Hr. cbn [rows] in Hr.
    apply elem_of_cons in Hr as [->|Hr];
      [|apply list_elem_of_singleton in Hr as ->];
      eexists; vm_compute; reflexivity.
  - exists (sample_row "b" "Post" "positive"), "positive".
    split; [apply list_elem_of_here|vm_compute; reflexivity].
  - exists m. by split.
Defined.

Example dominant_sent_sample :
  dominant_sent tied_frame = Ok (VStr "Positive").
Proof. vm_compute. reflexivity. Qed.

(** ** The feed cards *)

Lemma str_length_app a b :
  String.length (a +:+ b) = String.length a + String.length b.
Proof.
  induction a as [|c a IH]; [done|].
  change (S (String.length (a +:+ b)) = S (String.length a + String.length b)).
  by rewrite IH.
Qed.

Lemma str_prefix_app a b : str_prefix (String.length a) (a +:+ b) = a.
Proof.
  unfold str_prefix. induction a as [|c a IH]; [by destruct b|].
  change (String c (String.substring 0 (String.length a) (a +:+ b))
          = String c a).
  by rewrite IH.
Qed.

Lemma str_app_nil_inv a b : a +:+ b = "" → a = "" ∧ b = "".
Proof. by destruct a. Qed.

(** X6.  The link of a card is shown when the stored link is not empty, and a
    link that is shown starts with "http": a stored link that does so is
    shown as it is, any other is put behind the address of reddit.com.
    Making a link absolute a second time changes nothing. *)
Theorem feed_link_absolute link :
  (feed_link link = "" ↔ link = "")
  ∧ (link ≠ "" → String.prefix "http" (feed_link link) = true)
  ∧ (String.prefix "http" link = true → feed_link link = link)
  ∧ (link ≠ "" → String.prefix "http" link = false →
     feed_link link = "https://www.reddit.com" +:+ link)
  ∧ feed_link (feed_link link) = feed_link link.
Proof.
  unfold feed_link.
  destruct (decide (link = "")) as [->|Hne]; [by vm_compute|].
  rewrite (bool_decide_eq_false_2 (link = "")) by done. cbn [negb andb].
  destruct (String.prefix "http" link) eqn:Hp; cbn [negb].
  - split; [done|]. split; [done|]. split; [done|]. split; [done|].
    by rewrite bool_decide_eq_false_2, Hp by done.
  - split; [split; [by intros [[=] _]%str_app_nil_inv|done]|].
    split; [done|]. split; [done|]. split; [done|].
    rewrite bool_decide_eq_false_2 by (by intros [[=] _]%str_app_nil_inv).
    done.
Qed.

Example feed_link_samples :
  feed_link "/r/python/comments/1" = "https://www.reddit.com/r/python/comments/1"
  ∧ feed_link "https://example.org/a" = "https://example.org/a"
  ∧ feed_link "" = ""
  ∧ feed_link "www.reddit.com/r/x" = "https://www.reddit.comwww.reddit.com/r/x".
Proof. repeat split; vm_compute; reflexivity. Qed.

(** X7.  The caption under the title of a post is the preview itself when it
    has at most 200 characters, and its first 200 characters followed by
    "..." otherwise: unlike the title of a comment it carries the marker
    only when something was cut.  A caption has at most 203 characters,
    and cutting a caption again changes nothing. *)
Theorem post_caption_cut body :
  (String.length body ≤ 200 → post_caption body = body)
  ∧ (200 < String.length body →
     post_caption body = str_prefix 200 body +:+ "..."
     ∧ String.length (post_caption body) = 203)
  ∧ String.length (post_caption body) ≤ 203
  ∧ (∃ rest, body = str_prefix 200 body +:+ rest)
  ∧ post_caption (post_caption body) = post_caption body.
Proof.
  destruct (str_prefix_split 200 body) as (rest & Hsplit & Hlen).
  assert (200 < String.length body →
          post_caption body = str_prefix 200 body +:+ "..."
          ∧ String.length (post_caption body) = 203) as Hlong.
  { intros Hl. unfold post_caption.
    rewrite (proj2 (Nat.ltb_lt _ _) Hl). cbv iota. split; [done|].
    rewrite str_length_app, Hlen. cbn [String.length]. lia. }
  assert (String.length body ≤ 200 → post_caption body = body) as Hshort.
  { intros Hl. unfold post_caption.
    by rewrite (proj2 (Nat.ltb_ge _ _) Hl). }
  split; [done|]. split; [done|]. split; [|split; [by exists rest|]].
  - destruct (decide (200 < String.length body)) as [Hl|Hl].
    + destruct (Hlong Hl) as [_ Hcaplen]. lia.
    + rewrite Hshort by lia. lia.
  - destruct (decide (200 < String.length body)) as [Hl|Hl].
    + destruct (Hlong Hl) as [Hcap Hcaplen].
      assert (String.length (str_prefix 200 body) = 200) as H200 by lia.
      rewrite Hcap in Hcaplen |- *.
      set (pre := str_prefix 200 body) in *.
      assert (str_prefix 200 (pre +:+ "...") = pre) as Hpre
        by (rewrite <-H200; apply str_prefix_app).
      unfold post_caption.
      rewrite (proj2 (Nat.ltb_lt _ _)) by lia. cbv iota. by rewrite Hpre.
    + assert (post_caption body = body) as -> by (apply Hshort; lia).
      apply Hshort. lia.
Qed.

Example post_caption_samples :
  post_caption "short" = "short"
  ∧ post_caption (long_body +:+ long_body)
    = long_body +:+ str_prefix 80 long_body +:+ "..."
  ∧ String.length (long_body +:+ long_body) = 240.
Proof. repeat split; vm_compute; reflexivity. Qed.

(** ** More on the cache *)

Section cache_facts.
Variable parse_numeric : value → option Qc.
Variable parse_datetime : list value → value → option Z.
Variable strftime : Z → string.

#[local] Abbreviation load_data' :=
  (load_data parse_numeric parse_datetime strftime).
#[local] Abbreviation load_data_result' :=
  (load_data_result parse_numeric parse_datetime strftime).

(** X8.  The outcome of a load that found both collections empty is cached like
    any other: for the next 300 seconds a call returns the empty frame
    without load time and issues no query, even when the store has
    documents by then; only the expiry of the entry or a cleared cache lets
    the new documents in. *)
Theorem empty_load_is_cached s t0 db0 :
  (cache_slot s = None
   ∨ ∃ stored v, cache_slot s = Some (stored, v) ∧ (stored + 300 ≤ t0)%Z) →
  fetched db0 "posts" = [] → fetched db0 "comments" = [] →
  let s1 := (load_data' t0 db0 s).2 in
  (load_data' t0 db0 s).1 = Ok (empty_frame, None)
  ∧ (∀ now db, (now < t0 + 300)%Z →
       load_data' now db s1 = (Ok (empty_frame, None), s1))
  ∧ (∀ now db, (t0 + 300 ≤ now)%Z →
       (load_data' now db s1).1 = load_data_result' now db)
  ∧ (∀ now db,
       (load_data' now db (cache_data_clear s1)).1 = load_data_result' now db).
Proof.
  intros Hmiss Hp Hc. cbv zeta.
  rewrite (load_data_miss _ _ _ t0 db0 s Hmiss).
  rewrite load_data_result_empty by done. cbn [fst snd].
  split; [done|]. split; [|split].
  - intros now db Hfresh. by apply (load_data_hit _ _ _ now db _ t0).
  - intros now db Hstale. rewrite load_data_miss; [done|].
    right. by eexists _, _.
  - intros now db. rewrite load_data_miss; [done|]. by left.
Qed.
End cache_facts.

Lemma empty_load_is_cached_witness :
  (load_data sample_parse_numeric sample_parse_datetime sample_strftime
     299 sample_store
     (load_data sample_parse_numeric sample_parse_datetime sample_strftime
        0 empty_store fresh_state).2).1
  = Ok (empty_frame, None)
  ∧ (load_data sample_parse_numeric sample_parse_datetime sample_strftime
       300 sample_store
       (load_data sample_parse_numeric sample_parse_datetime sample_strftime
          0 empty_store fresh_state).2).1
    = sample_loaded.
Proof.
  destruct (empty_load_is_cached sample_parse_numeric sample_parse_datetime
              sample_strftime fresh_state 0 empty_store)
    as (_ & Hhit & Hstale & _).
  - by left.
  - reflexivity.
  - reflexivity.
  - split.
    + rewrite Hhit; [done|lia].
    + rewrite Hstale; [|lia]. vm_compute. reflexivity.
Defined.

(** ** Normalising twice *)

Section normalize_twice.
Variable parse_numeric : value → option Qc.
Variable parse_datetime : list value → value → option Z.

#[local] Abbreviation normalize' := (normalize parse_numeric parse_datetime).
#[local] Abbreviation normalized_row' :=
  (normalized_row parse_numeric parse_datetime).
#[local] Abbreviation normal_score' := (normal_score parse_numeric).
#[local] Abbreviation datetime_cell' := (datetime_cell parse_datetime).

(** The normalisation of a frame that has the four columns it reads and
    whose labels the [.str] accessor accepts. *)
Lemma normalize_Ok df :
  "timestamp" ∈ columns df → "vader_score" ∈ columns df →
  "transformer_label" ∈ columns df → "subreddit" ∈ columns df →
  (∀ r, r ∈ rows df →
     cell "transformer_label" r = VNull
     ∨ ∃ s, cell "transformer_label" r = VStr s) →
  ∃ df', normalize' df = Ok df'.
Proof.
  intros Hts Hv Hl Hs Hlabels. unfold normalize.
  rewrite decide_True by done.
  rewrite getitem_Ok by (cbn [setitem columns]; set_solver).
  cbn [mbind result_bind].
  rewrite getitem_Ok by (cbn [setitem columns]; set_solver).
  cbn [mbind result_bind].
  set (labels := fillna (VStr "neutral") _).
  assert (str_accessor labels = Ok labels) as ->.
  { unfold str_accessor.
    assert (Forall (λ v, is_str v = true) labels) as Hall.
    { subst labels. unfold fillna at 1. apply Forall_fmap, Forall_fmap.
      apply Forall_forall. intros r Hr. unfold compose.
      cbn [setitem rows] in Hr.
      unfold to_datetime in Hr.
      rewrite fillna_to_numeric, assign_cells_column in Hr.
      rewrite <-list_fmap_compose, assign_cells_fmap in Hr.
      apply list_elem_of_fmap in Hr as (r1 & -> & Hr1).
      apply list_elem_of_fmap in Hr1 as (r0 & -> & Hr0).
      rewrite !cell_insert_ne by done.
      destruct (Hlabels r0 Hr0) as [->|[s ->]]; done. }
    destruct labels as [|v labels']; [done|].
    apply Forall_cons in Hall as [Hv0 _]. cbn [existsb]. by rewrite Hv0. }
  cbn [mbind result_bind].
  rewrite getitem_Ok by (cbn [setitem columns]; set_solver).
  cbn [mbind result_bind]. unfold dropna.
  rewrite decide_True by (cbn [setitem columns]; set_solver).
  by eexists.
Qed.

Lemma normal_label_idemp v :
  v = VNull ∨ (∃ s, v = VStr s) → normal_label (normal_label v) = normal_label v.
Proof. intros [->|[s ->]]; cbn; [done|]. by rewrite str_lower_idemp. Qed.

Lemma normal_score_idemp v : normal_score' (normal_score' v) = normal_score' v.
Proof.
  unfold normal_score. destruct (numeric_cell_cases parse_numeric v)
    as [->|[q ->]]; done.
Qed.

Lemma normal_subreddit_idemp v :
  normal_subreddit (normal_subreddit v) = normal_subreddit v.
Proof. by destruct v. Qed.

(** A row that is normalised and has a valid time is left as it is by a
    second normalisation. *)
Lemma normalized_row_fixed ts ts' (r : row) τ :
  cell "transformer_label" r = VNull
  ∨ (∃ s, cell "transformer_label" r = VStr s) →
  datetime_cell' ts (cell "timestamp" r) = VTime τ →
  normalized_row' ts' (normalized_row' ts r) = normalized_row' ts r.
Proof.
  intros Hl Hτ. unfold normalized_row at 1.
  set (r' := normalized_row' ts r).
  assert (cell "subreddit" r' = normal_subreddit (cell "subreddit" r)) as Hs.
  { unfold r', normalized_row. by rewrite cell_insert_eq. }
  assert (cell "transformer_label" r'
          = normal_label (cell "transformer_label" r)) as Hl'.
  { unfold r', normalized_row.
    by rewrite cell_insert_ne, cell_insert_eq by done. }
  assert (cell "vader_score" r' = normal_score' (cell "vader_score" r)) as Hv.
  { unfold r', normalized_row.
    by rewrite !cell_insert_ne, cell_insert_eq by done. }
  assert (cell "timestamp" r' = VTime τ) as Ht.
  { unfold r', normalized_row.
    by rewrite !cell_insert_ne, cell_insert_eq, Hτ by done. }
  rewrite Hs, Hl', Hv, Ht, normal_subreddit_idemp, normal_label_idemp,
    normal_score_idemp by done.
  cbn [datetime_cell].
  unfold r', normalized_row. rewrite Hτ.
  apply map_eq. intros c.
  destruct (decide (c = "subreddit")) as [->|Hc1];
    [by rewrite !lookup_insert_eq|].
  destruct (decide (c = "transformer_label")) as [->|Hc2].
  { repeat first [rewrite lookup_insert_eq
                 |rewrite lookup_insert_ne by done]. done. }
  destruct (decide (c = "vader_score")) as [->|Hc3].
  { repeat first [rewrite lookup_insert_eq
                 |rewrite lookup_insert_ne by done]. done. }
  destruct (decide (c = "timestamp")) as [->|Hc4].
  { repeat first [rewrite lookup_insert_eq
                 |rewrite lookup_insert_ne by done]. done. }
  by rewrite !lookup_insert_ne by done.
Qed.

(** X9.  Normalising is idempotent on frames whose labels are texts or
    missing: when the normalisation of such a frame succeeds, normalising
    the outcome again succeeds and returns the outcome unchanged. *)
Theorem normalize_idempotent df df' :
  normalize' df = Ok df' →
  Forall (λ r, cell "transformer_label" r = VNull
               ∨ ∃ s, cell "transformer_label" r = VStr s) (rows df) →
  normalize' df' = Ok df'.
Proof.
  intros Hnorm Htext.
  destruct (normalize_Ok_inv _ _ _ _ Hnorm) as (Hts & Hv & Hl & Hs & Hcols & Hrows).
  set (ts := cell "timestamp" <$> rows df) in *.
  assert (∀ r', r' ∈ rows df' →
            ∃ r τ, r ∈ rows df ∧ r' = normalized_row' ts r
                   ∧ datetime_cell' ts (cell "timestamp" r) = VTime τ) as Hfrom.
  { intros r' Hr'. rewrite Hrows in Hr'.
    apply list_elem_of_filter in Hr' as [Hna Hr'].
    apply list_elem_of_fmap in Hr' as (r & -> & Hr).
    unfold normalized_row in Hna.
    rewrite !cell_insert_ne, cell_insert_eq in Hna by done.
    destruct (datetime_cell_cases parse_datetime ts (cell "timestamp" r))
      as [Hnull|[τ Hτ]]; [by rewrite Hnull in Hna|].
    by exists r, τ. }
  assert (∀ r', r' ∈ rows df' →
            cell "transformer_label" r' = VNull
            ∨ ∃ s, cell "transformer_label" r' = VStr s) as Htext'.
  { intros r' (r & τ & Hr & -> & _)%Hfrom. right.
    unfold normalized_row.
    rewrite cell_insert_ne, cell_insert_eq by done.
    eapply Forall_forall in Htext; [|exact Hr].
    destruct Htext as [->|[s ->]]; by eexists. }
  destruct (normalize_Ok df') as [df'' Hnorm'];
    [by apply Hcols..|done|].
  rewrite Hnorm'. f_equal.
  destruct (normalize_Ok_inv _ _ _ _ Hnorm') as (_ & _ & _ & _ & Hcols' & Hrows').
  destruct df' as [cols' rows'], df'' as [cols'' rows'']. cbn [columns rows] in *.
  f_equal.
  - apply set_eq. intros c. apply Hcols'.
  - rewrite Hrows'. clear Hrows' Hnorm'.
    set (ts' := cell "timestamp" <$> rows').
    assert (Forall (λ r', normalized_row' ts' r' = r'
                          ∧ isna (cell "timestamp" r') = false) rows') as Hfix.
    { apply Forall_forall. intros r' Hr'.
      destruct (Hfrom r' Hr') as (r & τ & Hr & -> & Hτ). split.
      - eapply normalized_row_fixed; [|exact Hτ].
        eapply Forall_forall in Htext; [|exact Hr]. done.
      - unfold normalized_row.
        by rewrite !cell_insert_ne, cell_insert_eq, Hτ by done. }
    clearbody ts'. clear -Hfix.
    induction Hfix as [|r' l [Hr' Hna] _ IH]; [done|].
    cbn [fmap list_fmap]. rewrite filter_cons, Hr', decide_True by done.
    by rewrite IH.
Qed.
End normalize_twice.

(** A label that is not a text breaks the idempotence: it is missing after
    one normalisation and "neutral" after two. *)
Example normalize_twice_differs :
  let df := mkDataFrame sample_columns
              [<["transformer_label" := VNum (Q2Qc 1)]>
                 (sample_row "a" "Post" "x");
               sample_row "a" "Post" "Positive"] in
  (df1 ← normalize sample_parse_numeric sample_parse_datetime df;
   Ok (cell "transformer_label" <$> rows df1))
  = Ok [VNull; VStr "positive"]
  ∧ (df1 ← normalize sample_parse_numeric sample_parse_datetime df;
     df2 ← normalize sample_parse_numeric sample_parse_datetime df1;
     Ok (cell "transformer_label" <$> rows df2))
    = Ok [VStr "neutral"; VStr "positive"].
Proof. split; vm_compute; reflexivity. Qed.

Lemma normalize_idempotent_witness :
  normalize sample_parse_numeric sample_parse_datetime raw_frame
  = Ok normalized_raw_frame
  ∧ cell "transformer_label" <$> rows raw_frame
    = [VStr "POSITIVE"; VStr "Neutral"]
  ∧ cell "transformer_label" <$> rows normalized_raw_frame
    = [VStr "positive"; VStr "neutral"]
  ∧ cell "subreddit" <$> rows normalized_raw_frame
    = [VStr "a"; VStr "unknown"]
  ∧ normalize sample_parse_numeric sample_parse_datetime normalized_raw_frame
    = Ok normalized_raw_frame.
Proof.
  split; [vm_compute; reflexivity|]. split; [vm_compute; reflexivity|].
  split; [vm_compute; reflexivity|]. split; [vm_compute; reflexivity|].
  apply (normalize_idempotent sample_parse_numeric sample_parse_datetime
           raw_frame normalized_raw_frame).
  - vm_compute. reflexivity.
  - apply Forall_forall. intros r Hr. right.
    unfold raw_frame in Hr. cbn [rows] in Hr.
    apply elem_of_cons in Hr as [->|Hr];
      [|apply list_elem_of_singleton in Hr as ->];
      eexists; vm_compute; reflexivity.
Defined.
